(** * MTG Card Lookup: card identification pipeline

    A shallow embedding of the Lambda backend ([sam-backend/src/index.js]),
    the service worker ([background.js]) and the content script
    ([content.js]), with the properties of the card identification
    pipeline stated over it. *)

From Stdlib Require Import List Bool Arith NArith ZArith Lia String Ascii.
From Stdlib Require Strings.Byte.
From Stdlib Require Import QArith Qminmax Lqa DecimalString.
Import ListNotations.
Close Scope Q_scope.

Set Implicit Arguments.

(** ** JavaScript values *)

(** A JavaScript string is a sequence of UTF-16 code units. *)
Definition jsstring := list N.

(** Literals of the source are written [js "..."]. *)
Definition js (s : string) : jsstring :=
  map N_of_ascii (list_ascii_of_string s).

(** The values a property of a parsed JSON body can hold, as far as the
    handler distinguishes them: [JUndefined] stands for a missing property
    (and the other falsy non-strings), [JOther] for a truthy value that is
    not a string (a number, an object), on which a string method call is a
    TypeError. *)
Inductive JsVal :=
| JUndefined
| JStr (s : jsstring)
| JOther.

(** JavaScript truthiness: the empty string is falsy. *)
Definition truthy (v : JsVal) : bool :=
  match v with
  | JUndefined => false
  | JStr [] => false
  | JStr _ => true
  | JOther => true
  end.

(** An optional string property ([undefined] when missing); [a || b]. *)
Definition truthy_str (v : option jsstring) : bool :=
  match v with
  | Some (_ :: _) => true
  | _ => false
  end.

Definition or_else (a b : option jsstring) : option jsstring :=
  if truthy_str a then a else b.

(** Completion of a possibly throwing computation: [Throw m] is a thrown
    [Error] whose [message] is [m]. *)
Inductive result (A : Type) :=
| Ok (a : A)
| Throw (message : jsstring).
Arguments Ok {A} a.
Arguments Throw {A} message.

(** ** String primitives used by the source *)

Module JsString.

(** Code units matched by [\s] (and removed by [trim]): WhiteSpace and
    LineTerminator of ECMAScript. *)
Definition is_space (c : N) : bool :=
  ((9 <=? c) && (c <=? 13) || (c =? 32) || (c =? 160) || (c =? 0x1680)
   || (0x2000 <=? c) && (c <=? 0x200A)
   || (c =? 0x2028) || (c =? 0x2029) || (c =? 0x202F) || (c =? 0x205F)
   || (c =? 0x3000) || (c =? 0xFEFF))%N.

(** [\w]: ASCII letters, digits and underscore. *)
Definition is_lower (c : N) : bool := ((97 <=? c) && (c <=? 122))%N.
Definition is_upper (c : N) : bool := ((65 <=? c) && (c <=? 90))%N.
Definition is_digit (c : N) : bool := ((48 <=? c) && (c <=? 57))%N.
Definition is_word (c : N) : bool :=
  is_lower c || is_upper c || is_digit c || (c =? 95)%N.

Definition SPACE : N := 32.
Definition HYPHEN : N := 45.
Definition APOSTROPHE : N := 39.

Fixpoint dropWhile (p : N -> bool) (s : jsstring) : jsstring :=
  match s with
  | [] => []
  | c :: s' => if p c then dropWhile p s' else s
  end.

Fixpoint takeWhile (p : N -> bool) (s : jsstring) : jsstring :=
  match s with
  | [] => []
  | c :: s' => if p c then c :: takeWhile p s' else []
  end.

(** [String.prototype.trim]. *)
Definition trim (s : jsstring) : jsstring :=
  rev (dropWhile is_space (rev (dropWhile is_space s))).

(** [s.replace(/\s+/g, ' ')]: every maximal run of white space becomes
    one space. [in_run] tells that the previous code unit was white
    space, already replaced. *)
Fixpoint replace_ws_runs (in_run : bool) (s : jsstring) : jsstring :=
  match s with
  | [] => []
  | c :: s' =>
      if is_space c
      then if in_run then replace_ws_runs true s'
           else SPACE :: replace_ws_runs true s'
      else c :: replace_ws_runs false s'
  end.

(** The class [[a-zA-Z0-9\s\-']]. *)
Definition in_name_class (c : N) : bool :=
  is_lower c || is_upper c || is_digit c || is_space c
  || (c =? HYPHEN)%N || (c =? APOSTROPHE)%N.

(** [s.substring(0, n)]. *)
Definition substring0 (n : nat) (s : jsstring) : jsstring := firstn n s.

(** [s.startsWith(p)], returning the rest. *)
Fixpoint strip_prefix (p s : jsstring) : option jsstring :=
  match p, s with
  | [], _ => Some s
  | a :: p', b :: s' => if (a =? b)%N then strip_prefix p' s' else None
  | _ :: _, [] => None
  end.

Definition startsWith (p s : jsstring) : bool :=
  match strip_prefix p s with Some _ => true | None => false end.

(** [s.includes(needle)]. *)
Fixpoint includes (needle s : jsstring) : bool :=
  startsWith needle s
  || match s with
     | [] => false
     | _ :: s' => includes needle s'
     end.

(** [s.endsWith(p)]. *)
Definition endsWith (p s : jsstring) : bool :=
  startsWith (rev p) (rev s).

End JsString.

Import JsString.

(** ** The backend: [sam-backend/src/index.js] *)

(** Scryfall's card object, as far as [lookupCard] reads it. A missing (or
    null) property is [None]. *)
Module Scryfall.

Record ImageUris := {
  normal : option jsstring;
  large : option jsstring
}.

Record CardFace := {
  face_image_uris : option ImageUris;
  face_oracle_text : option jsstring;
  face_mana_cost : option jsstring
}.

Record Card := {
  name : option jsstring;
  image_uris : option ImageUris;
  card_faces : option (list CardFace);
  set : option jsstring;
  set_name : option jsstring;
  type_line : option jsstring;
  oracle_text : option jsstring;
  mana_cost : option jsstring;
  rarity : option jsstring
}.

End Scryfall.

Module Backend.

Definition EXPECTED_WIDTH : N := 250.
Definition EXPECTED_HEIGHT : N := 120.

(** *** Outbound calls and the handler's monad

    The handler talks to two services. A computation of the handler
    yields the calls it issued, in order, and either a value or a thrown
    error. *)

Inductive Call :=
| CallGemini (base64Image apiKey : jsstring)
| CallScryfall (cardName : jsstring).

Definition M (A : Type) : Type := (list Call * result A)%type.

Definition ret {A} (a : A) : M A := ([], Ok a).

Definition throw {A} (message : jsstring) : M A := ([], Throw message).

Definition lift {A} (r : result A) : M A := ([], r).

Definition bind {A B} (m : M A) (f : A -> M B) : M B :=
  match m with
  | (calls, Ok a) => let (calls', r) := f a in (calls ++ calls', r)
  | (calls, Throw e) => (calls, Throw e)
  end.

Notation "x <- m ;; k" := (bind m (fun x => k))
  (at level 61, m at next level, right associativity).

(** What [await fetch(...)] settles to: a rejection, or a response with
    its status, its body as text and its body parsed ([resp.json()], which
    may throw). *)
Record Response (B : Type) := {
  status : N;
  text : jsstring;
  json : result B
}.

Inductive Fetched (B : Type) :=
| Rejected (message : jsstring)
| Responded (resp : Response B).
Arguments Rejected {B} message.
Arguments Responded {B} resp.

Definition ok {B} (resp : Response B) : bool :=
  ((200 <=? status resp) && (status resp <=? 299))%N.

Definition fetch {B} (c : Call) (f : Fetched B) : M (Response B) :=
  match f with
  | Rejected m => ([c], Throw m)
  | Responded resp => ([c], Ok resp)
  end.

(** [data.candidates?.[0]?.content?.parts]: the parts of the first
    candidate, each with its optional [text]; [None] when a link of the
    chain is missing. *)
Definition GeminiData := option (list (option jsstring)).

(** The world outside the handler: the environment variable, the runtime's
    [Buffer.from(_, 'base64')] and the two services. *)
Record Env := {
  GEMINI_API_KEY : option jsstring;
  Buffer_from : JsVal -> result (list Byte.byte);
  gemini : jsstring -> jsstring -> Fetched GeminiData;
  scryfall : jsstring -> Fetched Scryfall.Card
}.

(** *** [validateImage] *)

(** [buffer[i]], [undefined] out of range. *)
Definition byte_at (buffer : list Byte.byte) (i : nat) : option N :=
  option_map Byte.to_N (nth_error buffer i).

(** [buffer[i] !== v]. *)
Definition byte_differs (buffer : list Byte.byte) (i : nat) (v : N) : bool :=
  match byte_at buffer i with
  | Some b => negb (b =? v)%N
  | None => true
  end.

(** [buffer.readUInt32BE(offset)], a RangeError out of bounds. *)
Definition readUInt32BE (buffer : list Byte.byte) (offset : nat) : result N :=
  match byte_at buffer offset, byte_at buffer (offset + 1),
        byte_at buffer (offset + 2), byte_at buffer (offset + 3) with
  | Some b0, Some b1, Some b2, Some b3 =>
      Ok (b0 * 2 ^ 24 + b1 * 2 ^ 16 + b2 * 2 ^ 8 + b3)%N
  | _, _, _, _ => Throw (js "Attempt to access memory outside buffer bounds")
  end.

(** The body of the [try] block. *)
Definition validateImage_try (env : Env) (base64Image : JsVal) : result bool :=
  match Buffer_from env base64Image with
  | Throw m => Throw m
  | Ok buffer =>
      if (List.length buffer <? 24)%nat || byte_differs buffer 0 0x89
         || byte_differs buffer 1 0x50 || byte_differs buffer 2 0x4E
         || byte_differs buffer 3 0x47
      then Ok false
      else
        match readUInt32BE buffer 16 with
        | Throw m => Throw m
        | Ok width =>
            match readUInt32BE buffer 20 with
            | Throw m => Throw m
            | Ok height =>
                Ok ((width =? EXPECTED_WIDTH) && (height =? EXPECTED_HEIGHT))%N
            end
        end
  end.

(** [try { ... } catch { return false; }]. *)
Definition validateImage (env : Env) (base64Image : JsVal) : result bool :=
  match validateImage_try env base64Image with
  | Ok b => Ok b
  | Throw _ => Ok false
  end.

(** *** [performOCR] *)

Definition NONE : jsstring := js "NONE".

Fixpoint jsstring_eqb (a b : jsstring) : bool :=
  match a, b with
  | [], [] => true
  | x :: a', y :: b' => (x =? y)%N && jsstring_eqb a' b'
  | _, _ => false
  end.

(** [Array.prototype.join(' ')]. *)
Fixpoint join_space (l : list jsstring) : jsstring :=
  match l with
  | [] => []
  | [s] => s
  | s :: l' => s ++ SPACE :: join_space l'
  end.

(** [parts.filter(p => p.text).map(p => p.text)]. *)
Fixpoint truthy_texts (parts : list (option jsstring)) : list jsstring :=
  match parts with
  | [] => []
  | Some (c :: s) :: parts' => (c :: s) :: truthy_texts parts'
  | _ :: parts' => truthy_texts parts'
  end.

(** A status in a template literal. *)
Definition N_to_jsstring (n : N) : jsstring :=
  js (NilZero.string_of_uint (N.to_uint n)).

Definition performOCR (env : Env) (base64Image apiKey : jsstring)
  : M (option jsstring) :=
  resp <- fetch (CallGemini base64Image apiKey)
                (gemini env base64Image apiKey) ;;
  if negb (ok resp) then
    if (status resp =? 401)%N || (status resp =? 403)%N
    then throw (js "Invalid Gemini API key")
    else if (status resp =? 429)%N
    then throw (js "Rate limit exceeded")
    else throw (js "Gemini API error: " ++ N_to_jsstring (status resp)
                ++ js " - " ++ text resp)
  else
    data <- lift (json resp) ;;
    match option_map (fun parts => trim (join_space (truthy_texts parts))) data
    with
    | None => ret None
    | Some [] => ret None
    | Some t => if jsstring_eqb t NONE then ret None else ret (Some t)
    end.

(** *** [cleanCardName] *)

Definition cleanCardName_string (text : jsstring) : jsstring :=
  substring0 50
    (filter in_name_class (replace_ws_runs false (trim text))).

(** [if (!text) return ''] guards the chain of string methods; on a truthy
    value that is not a string [text.trim] is not a function. *)
Definition cleanCardName (text : JsVal) : result jsstring :=
  if negb (truthy text) then Ok []
  else match text with
       | JStr s => Ok (cleanCardName_string s)
       | _ => Throw (js "text.trim is not a function")
       end.

(** *** [lookupCard] *)

(** The object [lookupCard] returns. [backImageUrl] is a property that is
    only sometimes assigned: [None] when the assignment of line 87 did not
    run, [Some v] when it ran with value [v] ([v] itself [None] when the
    assigned expression is [undefined]). *)
Record CardRecord := {
  name : option jsstring;
  imageUrl : option jsstring;
  set : option jsstring;
  setName : option jsstring;
  type : option jsstring;
  oracleText : option jsstring;
  manaCost : option jsstring;
  rarity : option jsstring;
  backImageUrl : option (option jsstring)
}.

(** [c.card_faces?.[i]], also [c.card_faces[i]] once [c.card_faces] is
    known to be truthy. *)
Definition face (c : Scryfall.Card) (i : nat) : option Scryfall.CardFace :=
  match Scryfall.card_faces c with
  | Some faces => nth_error faces i
  | None => None
  end.

Definition opt_bind {A B} (o : option A) (f : A -> option B) : option B :=
  match o with Some a => f a | None => None end.

(** [uris?.normal || uris?.large]. *)
Definition normal_or_large (uris : option Scryfall.ImageUris)
  : option jsstring :=
  or_else (opt_bind uris Scryfall.normal) (opt_bind uris Scryfall.large).

(** [c.card_faces && !c.image_uris]; an array, even empty, is truthy. *)
Definition isDoubleFaced (c : Scryfall.Card) : bool :=
  match Scryfall.card_faces c, Scryfall.image_uris c with
  | Some _, None => true
  | _, _ => false
  end.

(** Lines 76 to 89: the record built from a parsed response. *)
Definition cardRecord (c : Scryfall.Card) : CardRecord :=
  let imageUris :=
    match Scryfall.image_uris c with
    | Some u => Some u
    | None => opt_bind (face c 0) Scryfall.face_image_uris
    end in
  {| name := Scryfall.name c;
     imageUrl := normal_or_large imageUris;
     set := Scryfall.set c;
     setName := Scryfall.set_name c;
     type := Scryfall.type_line c;
     oracleText :=
       or_else (Scryfall.oracle_text c)
               (opt_bind (face c 0) Scryfall.face_oracle_text);
     manaCost :=
       or_else (Scryfall.mana_cost c)
               (opt_bind (face c 0) Scryfall.face_mana_cost);
     rarity := Scryfall.rarity c;
     backImageUrl :=
       if isDoubleFaced c then
         match opt_bind (face c 1) Scryfall.face_image_uris with
         | Some uris => Some (normal_or_large (Some uris))
         | None => None
         end
       else None |}.

(** [await rateLimitScryfall()] only delays the request; the pacing is
    modelled in [RateLimiter] below. *)
Definition lookupCard (env : Env) (cardName : jsstring) : M CardRecord :=
  resp <- fetch (CallScryfall cardName) (scryfall env cardName) ;;
  if negb (ok resp) then
    if (status resp =? 404)%N
    then throw (js "Card not found: " ++ [34%N] ++ cardName ++ [34%N])
    else throw (js "Scryfall API error: " ++ N_to_jsstring (status resp))
  else
    c <- lift (json resp) ;;
    ret (cardRecord c).

(** *** [handler] *)

Module Request.

(** [JSON.parse(event.body || '{}')], as far as the handler reads it. *)
Record Body := {
  name : JsVal;
  image : JsVal
}.

(** [path] is [event.path || event.requestContext?.http?.path || ''];
    [body] is the outcome of parsing, a thrown SyntaxError included. *)
Record Event := {
  path : jsstring;
  body : result Body
}.

End Request.

(** The object given to [JSON.stringify] for the response body. *)
Inductive ResponseBody :=
| ErrorBody (error : jsstring)
| NotFoundBody
| FoundBody (card : CardRecord) (detectedName : option jsstring).

(** The handler's response; [headers] is the same constant in all of
    them. *)
Record HttpResponse := {
  statusCode : N;
  body : ResponseBody
}.

Definition badRequest : HttpResponse :=
  {| statusCode := 400; body := ErrorBody (js "Bad request") |}.

Definition notFound : HttpResponse :=
  {| statusCode := 200; body := NotFoundBody |}.

(** [image.replace(/^data:image\/\w+;base64,/, '')] on a string. The run of
    [\w] is followed by [;], which is not in [\w], so only the maximal run
    can match. *)
Definition strip_data_url (image : jsstring) : jsstring :=
  match strip_prefix (js "data:image/") image with
  | Some rest =>
      match takeWhile is_word rest with
      | [] => image
      | _ :: _ =>
          match strip_prefix (js ";base64,") (dropWhile is_word rest) with
          | Some base64 => base64
          | None => image
          end
      end
  | None => image
  end.

Definition image_replace (image : JsVal) : result jsstring :=
  match image with
  | JStr s => Ok (strip_data_url s)
  | _ => Throw (js "body.image.replace is not a function")
  end.

(** The body of the [try] block, lines 99 to 121. *)
Definition handler_try (env : Env) (event : Request.Event) : M HttpResponse :=
  body <- lift (Request.body event) ;;
  if endsWith (js "/lookup-by-name") (Request.path event) then
    if negb (truthy (Request.name body)) then ret badRequest
    else
      cardName <- lift (cleanCardName (Request.name body)) ;;
      match cardName with
      | [] => ret notFound
      | _ :: _ =>
          card <- lookupCard env cardName ;;
          ret {| statusCode := 200; body := FoundBody card None |}
      end
  else
    if negb (truthy (Request.image body))
    then ret {| statusCode := 400; body := ErrorBody (js "Missing image") |}
    else
      base64 <- lift (image_replace (Request.image body)) ;;
      valid <- lift (validateImage env (JStr base64)) ;;
      if negb valid
      then ret {| statusCode := 400; body := ErrorBody (js "Invalid image") |}
      else
        match GEMINI_API_KEY env with
        | Some (k :: ey) =>
            ocrText <- performOCR env base64 (k :: ey) ;;
            match ocrText with
            | Some (c :: t) =>
                cardName <- lift (cleanCardName (JStr (c :: t))) ;;
                match cardName with
                | [] => ret notFound
                | _ :: _ =>
                    card <- lookupCard env cardName ;;
                    ret {| statusCode := 200;
                           body := FoundBody card (Some cardName) |}
                end
            | _ => ret notFound
            end
        | _ =>
            ret {| statusCode := 500;
                   body := ErrorBody (js "Server config error") |}
        end.

(** The [catch] block, lines 122 to 128. *)
Definition handler_catch (message : jsstring) : HttpResponse :=
  if includes (js "not found") message then notFound
  else {| statusCode := 500; body := ErrorBody message |}.

(** The handler: the calls it issued and its response. *)
Definition handler (env : Env) (event : Request.Event)
  : list Call * HttpResponse :=
  match handler_try env event with
  | (calls, Ok response) => (calls, response)
  | (calls, Throw message) => (calls, handler_catch message)
  end.

End Backend.

(** ** The rate limiter: [rateLimitScryfall] and the head of [lookupCard]

    [lookupCard] is an async function: a call runs until
    [rateLimitScryfall] suspends it on a timer, other calls may start
    meanwhile, and it goes on when its timer fires. Time is what
    [Date.now()] returns, in milliseconds. *)

Module RateLimiter.

Definition SCRYFALL_RATE_LIMIT_MS : Z := 100.

(** The process: the module-level [lastScryfallCall], the due times of the
    timers of the suspended calls (in the order they were armed) and, for
    the statements, the times at which requests were issued, latest
    first. *)
Record Process := {
  lastScryfallCall : Z;
  sleeping : list Z;
  issued : list Z
}.

(** [let lastScryfallCall = 0]. *)
Definition start : Process :=
  {| lastScryfallCall := 0; sleeping := []; issued := [] |}.

(** Lines 15 to 19: the delay asked of [setTimeout], if any. *)
Definition delay (now last : Z) : option Z :=
  let elapsed := (now - last)%Z in
  if (elapsed <? SCRYFALL_RATE_LIMIT_MS)%Z
  then Some (SCRYFALL_RATE_LIMIT_MS - elapsed)%Z
  else None.

(** Line 20, and line 70 in the same turn of the event loop: the timestamp
    is recorded and the request goes out. *)
Definition record_and_fetch (now : Z) (p : Process) : Process :=
  {| lastScryfallCall := now;
     sleeping := sleeping p;
     issued := now :: issued p |}.

Fixpoint remove_nth {A} (i : nat) (l : list A) : list A :=
  match i, l with
  | _, [] => []
  | O, _ :: l' => l'
  | S i', x :: l' => x :: remove_nth i' l'
  end.

(** What the event loop runs next. [Call now now']: [lookupCard] is
    called, [Date.now()] reads [now] at line 15 and, when the call does not
    wait, [now'] at line 20. [Wake i now']: the timer of the [i]-th
    suspended call fires and [Date.now()] reads [now'] at line 20. *)
Inductive Turn :=
| Call (now now' : Z)
| Wake (i : nat) (now' : Z).

Definition step (p : Process) (t : Turn) : Process :=
  match t with
  | Call now now' =>
      match delay now (lastScryfallCall p) with
      | Some d =>
          {| lastScryfallCall := lastScryfallCall p;
             sleeping := sleeping p ++ [(now + d)%Z];
             issued := issued p |}
      | None => record_and_fetch now' p
      end
  | Wake i now' =>
      match nth_error (sleeping p) i with
      | Some _ =>
          record_and_fetch now'
            {| lastScryfallCall := lastScryfallCall p;
               sleeping := remove_nth i (sleeping p);
               issued := issued p |}
      | None => p
      end
  end.

Definition run (p : Process) (turns : list Turn) : Process :=
  fold_left step turns p.

(** The clock and the timers behave: readings of [Date.now()] never go
    back, and a timer does not fire before it is due. [clock] is the last
    reading. *)
Fixpoint admissible (clock : Z) (p : Process) (turns : list Turn) : bool :=
  match turns with
  | [] => true
  | t :: turns' =>
      match t with
      | Call now now' =>
          (clock <=? now)%Z && (now <=? now')%Z
          && admissible
               (match delay now (lastScryfallCall p) with
                | Some _ => now
                | None => now'
                end)
               (step p t) turns'
      | Wake i now' =>
          match nth_error (sleeping p) i with
          | Some due =>
              (clock <=? now')%Z && (due <=? now')%Z
              && admissible now' (step p t) turns'
          | None => false
          end
      end
  end.

(** Calls do not overlap: [lookupCard] is only called while no earlier call
    is suspended, as when each run of the handler is awaited before the
    next. *)
Fixpoint sequential (p : Process) (turns : list Turn) : bool :=
  match turns with
  | [] => true
  | t :: turns' =>
      match t with
      | Call _ _ =>
          match sleeping p with [] => true | _ :: _ => false end
      | Wake _ _ => true
      end
      && sequential (step p t) turns'
  end.

(** Every two of the times are at least the floor apart. *)
Fixpoint spaced (times : list Z) : bool :=
  match times with
  | [] => true
  | t :: times' =>
      forallb (fun u => (SCRYFALL_RATE_LIMIT_MS <=? Z.abs (t - u))%Z) times'
      && spaced times'
  end.

(** The last reading of [Date.now()] once the turns have run, [clock]
    being the last one before them. *)
Fixpoint final_clock (clock : Z) (p : Process) (turns : list Turn) : Z :=
  match turns with
  | [] => clock
  | t :: turns' =>
      final_clock
        (match t with
         | Call now now' =>
             match delay now (lastScryfallCall p) with
             | Some _ => now
             | None => now'
             end
         | Wake _ now' => now'
         end)
        (step p t) turns'
  end.

End RateLimiter.

(** ** The service worker: [background.js] *)

Module Background.

Definition COMMA : N := 44.

Definition not_comma (c : N) : bool := negb (c =? COMMA)%N.

(** [dataUrl.split(',')], then the second part when there is one. *)
Definition dataUrlToBase64 (dataUrl : jsstring) : jsstring :=
  match dropWhile not_comma dataUrl with
  | [] => dataUrl
  | _ :: rest => takeWhile not_comma rest
  end.

(** What [sendResponse] is given: [{ success: true, ...result }] or
    [{ success: false, error }]. *)
Inductive Message :=
| Success (result : Backend.ResponseBody)
| Failure (error : jsstring).

(** [lookupCardFromImage] once [fetch] has settled. *)
Definition lookup_settled (f : Backend.Fetched Backend.ResponseBody)
  : result Backend.ResponseBody :=
  match f with
  | Backend.Rejected m => Throw m
  | Backend.Responded resp =>
      if negb (Backend.ok resp) then Throw (js "Lookup failed")
      else Backend.json resp
  end.

(** The [then] and [catch] of the message listener. *)
Definition reply (r : result Backend.ResponseBody) : Message :=
  match r with
  | Ok data => Success data
  | Throw m => Failure m
  end.

(** The event a POST of [{ image: base64Image }] to [API_ENDPOINT] makes
    for the handler. *)
Definition lookup_event (base64Image : jsstring) : Backend.Request.Event :=
  {| Backend.Request.path := js "/lookup";
     Backend.Request.body :=
       Ok {| Backend.Request.name := JUndefined;
             Backend.Request.image := JStr base64Image |} |}.

(** The request reaches the Lambda through the API; its response comes
    back with the handler's status code and body. *)
Definition post_lookup (env : Backend.Env) (base64Image : jsstring)
  : list Backend.Call * Backend.Fetched Backend.ResponseBody :=
  let (calls, response) := Backend.handler env (lookup_event base64Image) in
  (calls,
   Backend.Responded
     {| Backend.status := Backend.statusCode response;
        Backend.text := [];
        Backend.json := Ok (Backend.body response) |}).

(** The listener's [lookupCard] action, end to end. *)
Definition lookupCardFromImage (env : Backend.Env) (imageDataUrl : jsstring)
  : list Backend.Call * Message :=
  let (calls, f) := post_lookup env (dataUrlToBase64 imageDataUrl) in
  (calls, reply (lookup_settled f)).

(** The event a POST of [{ name: cardName }] to [API_ENDPOINT_BY_NAME]
    makes for the handler. *)
Definition by_name_event (cardName : jsstring) : Backend.Request.Event :=
  {| Backend.Request.path := js "/lookup-by-name";
     Backend.Request.body :=
       Ok {| Backend.Request.name := JStr cardName;
             Backend.Request.image := JUndefined |} |}.

Definition post_lookup_by_name (env : Backend.Env) (cardName : jsstring)
  : list Backend.Call * Backend.Fetched Backend.ResponseBody :=
  let (calls, response) := Backend.handler env (by_name_event cardName) in
  (calls,
   Backend.Responded
     {| Backend.status := Backend.statusCode response;
        Backend.text := [];
        Backend.json := Ok (Backend.body response) |}).

(** The listener's [lookupCardByName] action, end to end; after [fetch]
    settles [lookupCardByName] goes on as [lookupCardFromImage] does. *)
Definition lookupCardByName (env : Backend.Env) (cardName : jsstring)
  : list Backend.Call * Message :=
  let (calls, f) := post_lookup_by_name env cardName in
  (calls, reply (lookup_settled f)).

End Background.

(** ** The content script: [content.js] *)

Module Content.

(** *** [captureRegionAroundCursor]: the region and the canvas size *)

Record Region := {
  startX : Q;
  startY : Q;
  endX : Q;
  endY : Q
}.

(** Lines 179 to 182. [innerWidth] and [innerHeight] are the window's. *)
Definition regionBounds
  (cursorX cursorY regionWidth regionHeight innerWidth innerHeight : Q)
  : Region :=
  let startX := Qmax 0 (cursorX - regionWidth / 2) in
  let startY := Qmax 0 (cursorY - regionHeight / 2) in
  {| startX := startX;
     startY := startY;
     endX := Qmin innerWidth (startX + regionWidth);
     endY := Qmin innerHeight (startY + regionHeight) |}.

Definition width (r : Region) : Q := endX r - startX r.
Definition height (r : Region) : Q := endY r - startY r.

Definition scale : Q := 2.

(** Lines 188 to 191: the values assigned to [canvas.width] and
    [canvas.height]. *)
Definition canvasSize (r : Region) : Q * Q :=
  (width r * scale, height r * scale)%Q.

(** [performCardLookup] asks for 125 by 60. *)
Definition regionWidth : Q := 125.
Definition regionHeight : Q := 60.

Definition captureSize (cursorX cursorY innerWidth innerHeight : Q) : Q * Q :=
  canvasSize
    (regionBounds cursorX cursorY regionWidth regionHeight
                  innerWidth innerHeight).

(** *** The overlays

    The page, as far as the extension is concerned, is the list of the
    elements it appended to [document.body], in document order. *)

Inductive Element :=
| Backdrop
| LoadingSpinner (loadingText : jsstring)
| CardOverlay (cardData : Backend.CardRecord)
| TextInputModal (value errorMessage : jsstring)
| DebugOverlay.

Definition id (e : Element) : jsstring :=
  match e with
  | Backdrop => js "mtg-backdrop"
  | LoadingSpinner _ => js "mtg-loading-spinner"
  | CardOverlay _ => js "mtg-card-overlay"
  | TextInputModal _ _ => js "mtg-text-input-modal"
  | DebugOverlay => js "mtg-debug-overlay"
  end.

Definition DOM := list Element.

(** [const e = document.getElementById(i); if (e) e.remove()]: the first
    element with that id goes. *)
Fixpoint remove_by_id (i : jsstring) (dom : DOM) : DOM :=
  match dom with
  | [] => []
  | e :: dom' =>
      if Backend.jsstring_eqb (id e) i then dom'
      else e :: remove_by_id i dom'
  end.

Definition dismissOverlay (dom : DOM) : DOM :=
  remove_by_id (js "mtg-debug-overlay")
    (remove_by_id (js "mtg-text-input-modal")
       (remove_by_id (js "mtg-card-overlay")
          (remove_by_id (js "mtg-loading-spinner")
             (remove_by_id (js "mtg-backdrop") dom)))).

(** [customMessage || `Searching for: ${cardName}`]. *)
Definition showLoadingSpinner (cardName customMessage : jsstring) (dom : DOM)
  : DOM :=
  dismissOverlay dom
  ++ [Backdrop;
      LoadingSpinner
        (match customMessage with
         | [] => js "Searching for: " ++ cardName
         | _ :: _ => customMessage
         end)].

Definition showCardOverlay (cardData : Backend.CardRecord) (dom : DOM) : DOM :=
  dismissOverlay dom ++ [Backdrop; CardOverlay cardData].

(** [input.value = detectedText || '']. *)
Definition showFallbackInput (detectedText errorMessage : jsstring) (dom : DOM)
  : DOM :=
  dismissOverlay dom ++ [Backdrop; TextInputModal detectedText errorMessage].

(** *** [performCardLookup] and [handleCardLookup] *)

(** The object [performCardLookup] resolves to; [found] is the truthiness
    of [response.found]. *)
Record LookupResult := {
  found : bool;
  card : option Backend.CardRecord;
  detectedName : option jsstring
}.

(** What the callback of [chrome.runtime.sendMessage] is run with. *)
Inductive Reply :=
| LastError (message : jsstring)
| Response (response : Background.Message).

(** The callback, lines 101 to 112: the promise resolves or rejects. *)
Definition performCardLookup_settled (r : Reply) : result LookupResult :=
  match r with
  | LastError m => Throw m
  | Response (Background.Success (Backend.FoundBody c d)) =>
      Ok {| found := true; card := Some c; detectedName := d |}
  | Response (Background.Success _) =>
      Ok {| found := false; card := None; detectedName := None |}
  | Response (Background.Failure []) => Throw (js "Lookup failed")
  | Response (Background.Failure e) => Throw e
  end.

Definition NO_CARD_DETECTED : jsstring :=
  js "No card detected. Please enter card name manually.".

Definition UNABLE_TO_DETECT : jsstring :=
  js "Unable to detect card. Please enter card name manually.".

(** The [then] and [catch] of [handleCardLookup], lines 66 to 77. *)
Definition handleCardLookup_settled (r : result LookupResult) (dom : DOM)
  : DOM :=
  match r with
  | Ok result =>
      let dom := dismissOverlay dom in
      match found result, card result with
      | true, Some c =>
          if truthy_str (Backend.imageUrl c) then showCardOverlay c dom
          else
            showFallbackInput
              (match detectedName result with Some d => d | None => [] end)
              NO_CARD_DETECTED dom
      | _, _ =>
          showFallbackInput
            (match detectedName result with Some d => d | None => [] end)
            NO_CARD_DETECTED dom
      end
  | Throw _ => showFallbackInput [] UNABLE_TO_DETECT (dismissOverlay dom)
  end.

(** *** The page over time

    [inflight] counts the promises of [performCardLookup] that have not
    settled yet. *)
Record Page := {
  dom : DOM;
  inflight : nat
}.

Definition idle : Page := {| dom := []; inflight := 0 |}.

(** [Backtick] is the trigger key, [Dismiss] the Escape key, a click on
    the backdrop or on a close button, [Settled r] the arrival of the
    outcome of a lookup in flight. *)
Inductive Input :=
| Backtick
| Dismiss
| Settled (r : result LookupResult).

Definition step (p : Page) (i : Input) : Page :=
  match i with
  | Backtick =>
      {| dom := showLoadingSpinner [] (js "Looking up card...") (dom p);
         inflight := S (inflight p) |}
  | Dismiss => {| dom := dismissOverlay (dom p); inflight := inflight p |}
  | Settled r =>
      match inflight p with
      | O => p
      | S n => {| dom := handleCardLookup_settled r (dom p); inflight := n |}
      end
  end.

Definition run (p : Page) (inputs : list Input) : Page :=
  fold_left step inputs p.

(** *** One lookup, end to end

    The image goes to the service worker, from there to the Lambda, and
    the answer comes back to the overlay that was showing the spinner. *)
Definition lookup (env : Backend.Env) (imageDataUrl : jsstring)
  : list Backend.Call * DOM :=
  let (calls, message) := Background.lookupCardFromImage env imageDataUrl in
  (calls,
   handleCardLookup_settled
     (performCardLookup_settled (Response message))
     (dom (step idle Backtick))).

(** The terminal states of the orchestrator, read off the page. *)
Definition NoMatch (prefill : jsstring) : DOM :=
  [Backdrop; TextInputModal prefill NO_CARD_DETECTED].

Definition ErrorFallback : DOM :=
  [Backdrop; TextInputModal [] UNABLE_TO_DETECT].

Definition Resolved (c : Backend.CardRecord) : DOM :=
  [Backdrop; CardOverlay c].

(** *** [captureRegionAroundCursor]: an image under the cursor

    Lines 233 to 252. [rects] are the bounding rectangles of the IMG
    elements under the cursor, topmost first; the first one that meets the
    region is drawn at [(x, y)] with size [imgWidth] by [imgHeight], in the
    region's coordinates. *)

Record DOMRect := {
  left : Q;
  top : Q;
  rectWidth : Q;
  rectHeight : Q
}.

Definition right (rect : DOMRect) : Q := left rect + rectWidth rect.






(** *** The [keydown] listener, lines 17 to 51 *)

Record KeyboardEvent := {
  key : jsstring;
  code : jsstring;
  shiftKey : bool;
  tagName : jsstring
}.

(** What the listener runs. *)
Inductive Handler :=
| RunDismissOverlay
| RunHandleCardLookup
| RunHandleDebugMode.

(** [target.tagName === 'INPUT' || target.tagName === 'TEXTAREA']. *)
Definition typing (e : KeyboardEvent) : bool :=
  Backend.jsstring_eqb (tagName e) (js "INPUT")
  || Backend.jsstring_eqb (tagName e) (js "TEXTAREA").

(** [event.key === '~' || (event.shiftKey && event.key === '`')
    || (event.shiftKey && event.code === 'Backquote')]. *)
Definition is_debug_key (e : KeyboardEvent) : bool :=
  Backend.jsstring_eqb (key e) (js "~")
  || shiftKey e && Backend.jsstring_eqb (key e) (js "`")
  || shiftKey e && Backend.jsstring_eqb (code e) (js "Backquote").

(** The handlers the listener runs on an event, in order. A [return]
    inside the backtick branch also skips the debug branch. *)
Definition keydown (e : KeyboardEvent) : list Handler :=
  if Backend.jsstring_eqb (key e) (js "Escape") then [RunDismissOverlay]
  else if Backend.jsstring_eqb (key e) (js "`") then
    if typing e then []
    else if is_debug_key e then [RunHandleCardLookup; RunHandleDebugMode]
    else [RunHandleCardLookup]
  else if is_debug_key e then
    if typing e then [] else [RunHandleDebugMode]
  else [].

(** *** [showDebugOverlay] and [handleCardLookupWithName] *)

(** What the debug overlay holds is not kept. *)
Definition showDebugOverlay (dom : DOM) : DOM :=
  dismissOverlay dom ++ [Backdrop; DebugOverlay].

(** The callback of [handleCardLookupWithName], lines 584 to 596. *)
Definition handleCardLookupWithName_settled
  (cardName : jsstring) (r : Reply) (dom : DOM) : DOM :=
  match r with
  | LastError m => showFallbackInput cardName (js "Error: " ++ m) dom
  | Response (Background.Success (Backend.FoundBody c _)) =>
      showCardOverlay c (dismissOverlay dom)
  | Response _ =>
      showFallbackInput cardName
        (js "Card not found: " ++ [34%N] ++ cardName ++ [34%N]) dom
  end.

(** One lookup by name, end to end: the spinner, the service worker, the
    Lambda, and the callback. *)
Definition lookupByName (env : Backend.Env) (cardName : jsstring)
  : list Backend.Call * DOM :=
  let (calls, message) := Background.lookupCardByName env cardName in
  (calls,
   handleCardLookupWithName_settled cardName (Response message)
     (showLoadingSpinner cardName [] [])).

End Content.

(** ** The page and its requests over time

    All the ways the content script is entered: the keyboard, a click on
    the backdrop or on a close button, the Search button of the prompt,
    and the callbacks of the requests in flight. *)

Module Session.

Import Content.

(** A request in flight and the callback that waits for it:
    [handleCardLookup]'s (with or without a capture: without, no message
    was sent and the promise is already rejected),
    [handleCardLookupWithName]'s or [handleDebugMode]'s. *)
Inductive Pending :=
| ImageLookup
| CaptureFailed
| NameLookup (cardName : jsstring)
| DebugLookup.

Record State := {
  page : DOM;
  pending : list Pending
}.

Definition initial : State := {| page := []; pending := [] |}.

(** [captured] tells whether [captureRegionAroundCursor] returned a
    canvas. *)
Definition run_handler (captured : bool) (s : State) (h : Handler) : State :=
  match h with
  | RunDismissOverlay =>
      {| page := dismissOverlay (page s); pending := pending s |}
  | RunHandleCardLookup =>
      {| page := showLoadingSpinner [] (js "Looking up card...") (page s);
         pending :=
           pending s ++ [if captured then ImageLookup else CaptureFailed] |}
  | RunHandleDebugMode =>
      {| page := showDebugOverlay (page s);
         pending := if captured then pending s ++ [DebugLookup]
                    else pending s |}
  end.

Definition has_prompt (d : DOM) : bool :=
  existsb (fun e => match e with TextInputModal _ _ => true | _ => false end)
          d.

(** [Search value] is a click on the prompt's button (or Enter in its
    input) while the input holds [value]; [Settled i r] runs the callback
    of the [i]-th request in flight with [r]. *)
Inductive Event :=
| Keydown (e : KeyboardEvent) (captured : bool)
| Click
| Search (value : jsstring)
| Settled (i : nat) (r : Reply).

Definition step (s : State) (ev : Event) : State :=
  match ev with
  | Keydown e captured => fold_left (run_handler captured) (keydown e) s
  | Click => {| page := dismissOverlay (page s); pending := pending s |}
  | Search value =>
      if has_prompt (page s) then
        match trim value with
        | [] => s
        | c :: ardName =>
            {| page :=
                 showLoadingSpinner (c :: ardName) []
                   (dismissOverlay (page s));
               pending := pending s ++ [NameLookup (c :: ardName)] |}
        end
      else s
  | Settled i r =>
      match nth_error (pending s) i with
      | Some ImageLookup =>
          {| page :=
               handleCardLookup_settled (performCardLookup_settled r)
                                        (page s);
             pending := RateLimiter.remove_nth i (pending s) |}
      | Some CaptureFailed =>
          {| page :=
               handleCardLookup_settled
                 (Throw (js "Failed to capture region")) (page s);
             pending := RateLimiter.remove_nth i (pending s) |}
      | Some (NameLookup cardName) =>
          {| page := handleCardLookupWithName_settled cardName r (page s);
             pending := RateLimiter.remove_nth i (pending s) |}
      | Some DebugLookup =>
          {| page := showDebugOverlay (page s);
             pending := RateLimiter.remove_nth i (pending s) |}
      | None => s
      end
  end.

Definition run (s : State) (events : list Event) : State :=
  fold_left step events s.

End Session.

(** ** The vocabulary of the statements *)

Module Spec.

(** A letter, a digit, the space, the hyphen or the apostrophe. *)
Definition allowed (c : N) : Prop :=
  (97 <= c <= 122)%N \/ (65 <= c <= 90)%N \/ (48 <= c <= 57)%N
  \/ c = 32%N \/ c = 45%N \/ c = 39%N.

(** No white space at either end, and no two white space code units in a
    row. *)
Fixpoint no_ws_run (s : jsstring) : bool :=
  match s with
  | [] => true
  | c :: s' =>
      match s' with
      | [] => true
      | d :: _ => negb (is_space c && is_space d)
      end
      && no_ws_run s'
  end.

Definition starts_clean (s : jsstring) : bool :=
  match s with
  | [] => true
  | c :: _ => negb (is_space c)
  end.

Definition no_outer_ws (s : jsstring) : bool :=
  starts_clean s && starts_clean (rev s).

Definition normalized (s : jsstring) : bool := no_outer_ws s && no_ws_run s.

(** The first four bytes of a PNG file. *)
Definition PNG_MAGIC : list Byte.byte :=
  [Byte.x89; Byte.x50; Byte.x4e; Byte.x47].

Definition png_signature (buffer : list Byte.byte) : Prop :=
  firstn 4 buffer = PNG_MAGIC.

(** The big-endian number a run of bytes spells. *)
Definition big_endian (bytes : list Byte.byte) : N :=
  fold_left (fun acc b => (acc * 256 + Byte.to_N b)%N) bytes 0%N.

(** The 32-bit field of a header at a byte offset. *)
Definition field32 (buffer : list Byte.byte) (offset : nat) : N :=
  big_endian (firstn 4 (skipn offset buffer)).

Definition MIN_HEADER_LENGTH : nat := 24.
Definition WIDTH_OFFSET : nat := 16.
Definition HEIGHT_OFFSET : nat := 20.

(** The record has two faces with independent images: it lists at least
    two faces, the images are those of the faces and not one image of the
    card as a whole, and the second face carries image data. *)
Definition two_faces_with_independent_images (c : Scryfall.Card) : Prop :=
  exists front back others uris,
    Scryfall.card_faces c = Some (front :: back :: others)
    /\ Scryfall.image_uris c = None
    /\ Scryfall.face_image_uris back = Some uris.

(** The record lists no faces, or just one. *)
Definition single_faced (c : Scryfall.Card) : Prop :=
  match Scryfall.card_faces c with
  | None | Some [] | Some [_] => True
  | Some (_ :: _ :: _) => False
  end.

(** The image data of the front: the card's own, else the first face's. *)
Definition front_image (c : Scryfall.Card) : option Scryfall.ImageUris :=
  match Scryfall.image_uris c, Scryfall.card_faces c with
  | Some uris, _ => Some uris
  | None, Some (front :: _) => Scryfall.face_image_uris front
  | None, _ => None
  end.

(** The URL of the "normal" size when there is one, else of "large". *)
Definition preferred_url (uris : Scryfall.ImageUris) : option jsstring :=
  match Scryfall.normal uris with
  | Some (c :: url) => Some (c :: url)
  | _ => Scryfall.large uris
  end.

(** What the outcome of a lookup is rendered as: the card, the prompt of
    NoMatch with the detected name if the response carries one, or the
    prompt of ErrorFallback. *)
Definition rendered (r : result Content.LookupResult) : Content.DOM :=
  match r with
  | Ok result =>
      let prefill :=
        match Content.detectedName result with
        | Some d => d
        | None => []
        end in
      match Content.found result, Content.card result with
      | true, Some c =>
          match Backend.imageUrl c with
          | Some (_ :: _) => Content.Resolved c
          | _ => Content.NoMatch prefill
          end
      | _, _ => Content.NoMatch prefill
      end
  | Throw _ => Content.ErrorFallback
  end.

(** A code unit the normalizer keeps as it is: one of its class, and if
    white space then the space. *)
Definition kept (c : N) : Prop :=
  in_name_class c = true /\ (is_space c = true -> c = SPACE).

(** The pages the extension builds: nothing, or a backdrop and one
    overlay. *)
Inductive shown : Content.DOM -> Prop :=
| shown_nothing : shown []
| shown_overlay (x : Content.Element) :
    x <> Content.Backdrop -> shown [Content.Backdrop; x].

(** What holds between two turns when calls do not overlap: at most one
    call is suspended, its timer is due no sooner than the floor after the
    last recorded timestamp, no request went out after that timestamp, and
    the requests so far are spaced. *)
Record paced (p : RateLimiter.Process) : Prop := {
  paced_sleeping :
    RateLimiter.sleeping p = []
    \/ exists due,
        RateLimiter.sleeping p = [due]
        /\ (RateLimiter.lastScryfallCall p
            + RateLimiter.SCRYFALL_RATE_LIMIT_MS <= due)%Z;
  paced_issued :
    Forall (fun u => (u <= RateLimiter.lastScryfallCall p)%Z)
           (RateLimiter.issued p);
  paced_spaced : RateLimiter.spaced (RateLimiter.issued p) = true
}.

(** A data URL: [data:image/<subtype>;base64,<payload>]. *)
Definition data_url (subtype payload : jsstring) : jsstring :=
  js "data:image/" ++ subtype ++ js ";base64," ++ payload.

(** The base64 alphabet and its padding. *)
Definition is_base64_char (c : N) : bool :=
  is_lower c || is_upper c || is_digit c
  || (c =? 43)%N || (c =? 47)%N || (c =? 61)%N.

(** A name fit for the card database: not empty, at most 50 code units,
    allowed characters only. *)
Definition sanitized (cardName : jsstring) : Prop :=
  cardName <> [] /\ List.length cardName <= 50 /\ Forall allowed cardName.

(** The OCR call is made on a validated image with the configured key. *)
Definition ocr_call_allowed (env : Backend.Env) (c : Backend.Call) : Prop :=
  match c with
  | Backend.CallGemini base64Image apiKey =>
      Backend.validateImage env (JStr base64Image) = Ok true
      /\ Backend.GEMINI_API_KEY env = Some apiKey
      /\ apiKey <> []
  | Backend.CallScryfall _ => False
  end.

Definition card_call_allowed (c : Backend.Call) : Prop :=
  match c with
  | Backend.CallScryfall cardName => sanitized cardName
  | Backend.CallGemini _ _ => False
  end.

(** The calls of one run of the handler: none, the OCR call, the card
    database call, or the OCR call and then the card database call. *)
Definition disciplined (env : Backend.Env) (calls : list Backend.Call)
  : Prop :=
  match calls with
  | [] => True
  | [c] => ocr_call_allowed env c \/ card_call_allowed c
  | [c1; c2] => ocr_call_allowed env c1 /\ card_call_allowed c2
  | _ => False
  end.

Definition is_error_body (b : Backend.ResponseBody) : bool :=
  match b with
  | Backend.ErrorBody _ => true
  | _ => false
  end.

(** The outcome of the [try] block, case by case. [by_name] tells which
    endpoint was asked. *)
Inductive tried (env : Backend.Env) (by_name : bool)
  : list Backend.Call -> result Backend.HttpResponse -> Prop :=
| tried_nothing (r : result Backend.HttpResponse) :
    (forall response,
        r = Ok response ->
        Backend.body response = Backend.NotFoundBody
        /\ Backend.statusCode response = 200%N
        \/ is_error_body (Backend.body response) = true
           /\ (Backend.statusCode response = 400%N
               \/ Backend.statusCode response = 500%N)) ->
    tried env by_name [] r
| tried_ocr_only (base64Image apiKey : jsstring)
                 (r : result Backend.HttpResponse) :
    by_name = false ->
    ocr_call_allowed env (Backend.CallGemini base64Image apiKey) ->
    (forall response, r = Ok response -> response = Backend.notFound) ->
    tried env by_name [Backend.CallGemini base64Image apiKey] r
| tried_ocr_and_card (base64Image apiKey cardName : jsstring)
                     (r : result Backend.HttpResponse) :
    by_name = false ->
    ocr_call_allowed env (Backend.CallGemini base64Image apiKey) ->
    sanitized cardName ->
    (forall response,
        r = Ok response ->
        exists resp c,
          Backend.scryfall env cardName = Backend.Responded resp
          /\ Backend.ok resp = true /\ Backend.json resp = Ok c
          /\ response
             = {| Backend.statusCode := 200;
                  Backend.body :=
                    Backend.FoundBody (Backend.cardRecord c)
                                      (Some cardName) |}) ->
    tried env by_name
          [Backend.CallGemini base64Image apiKey;
           Backend.CallScryfall cardName] r
| tried_card_only (cardName : jsstring) (r : result Backend.HttpResponse) :
    by_name = true ->
    sanitized cardName ->
    (forall response,
        r = Ok response ->
        exists resp c,
          Backend.scryfall env cardName = Backend.Responded resp
          /\ Backend.ok resp = true /\ Backend.json resp = Ok c
          /\ response
             = {| Backend.statusCode := 200;
                  Backend.body :=
                    Backend.FoundBody (Backend.cardRecord c) None |}) ->
    tried env by_name [Backend.CallScryfall cardName] r.

End Spec.

(** ** Sample worlds

    Concrete environments and inputs, on which the statements below are
    run. *)

Module Sample.

Import Backend.

(** The first 24 bytes of a PNG file: signature, IHDR chunk head, width,
    height. *)
Definition png_header (w3 h3 : Byte.byte) : list Byte.byte :=
  [Byte.x89; Byte.x50; Byte.x4e; Byte.x47; Byte.x0d; Byte.x0a; Byte.x1a;
   Byte.x0a; Byte.x00; Byte.x00; Byte.x00; Byte.x0d; Byte.x49; Byte.x48;
   Byte.x44; Byte.x52; Byte.x00; Byte.x00; Byte.x00; w3; Byte.x00;
   Byte.x00; Byte.x00; h3].

(** 250 by 120, and 165 by 120. *)
Definition full_capture : list Byte.byte := png_header Byte.xfa Byte.x78.
Definition clipped_capture : list Byte.byte := png_header Byte.xa5 Byte.x78.

(** A decoder that yields a given buffer for every string. *)
Definition decodes_to (buffer : list Byte.byte) (v : JsVal)
  : result (list Byte.byte) :=
  match v with
  | JStr _ => Ok buffer
  | _ => Throw (js "The first argument must be of type string")
  end.

Definition responds {B} (status : N) (text : jsstring) (json : result B)
  : Fetched B :=
  Responded {| status := status; text := text; json := json |}.

Definition no_json {B} : result B :=
  Throw (js "Unexpected end of JSON input").

Definition lightning_bolt : Scryfall.Card :=
  {| Scryfall.name := Some (js "Lightning Bolt");
     Scryfall.image_uris :=
       Some {| Scryfall.normal :=
                 Some (js "https://cards.scryfall.io/normal/bolt.jpg");
               Scryfall.large :=
                 Some (js "https://cards.scryfall.io/large/bolt.jpg") |};
     Scryfall.card_faces := None;
     Scryfall.set := Some (js "lea");
     Scryfall.set_name := Some (js "Limited Edition Alpha");
     Scryfall.type_line := Some (js "Instant");
     Scryfall.oracle_text :=
       Some (js "Lightning Bolt deals 3 damage to any target.");
     Scryfall.mana_cost := Some (js "{R}");
     Scryfall.rarity := Some (js "common") |}.

(** A transforming card: two faces, each with its own images, and no image
    of the card as a whole. *)
Definition delver_front : Scryfall.CardFace :=
  {| Scryfall.face_image_uris :=
       Some {| Scryfall.normal :=
                 Some (js "https://cards.scryfall.io/normal/front/delver.jpg");
               Scryfall.large :=
                 Some (js "https://cards.scryfall.io/large/front/delver.jpg") |};
     Scryfall.face_oracle_text :=
       Some (js "At the beginning of your upkeep, look at the top card.");
     Scryfall.face_mana_cost := Some (js "{U}") |}.

Definition delver_back : Scryfall.CardFace :=
  {| Scryfall.face_image_uris :=
       Some {| Scryfall.normal :=
                 Some (js "https://cards.scryfall.io/normal/back/delver.jpg");
               Scryfall.large :=
                 Some (js "https://cards.scryfall.io/large/back/delver.jpg") |};
     Scryfall.face_oracle_text := Some (js "Flying");
     Scryfall.face_mana_cost := Some [] |}.

Definition delver : Scryfall.Card :=
  {| Scryfall.name := Some (js "Delver of Secrets // Insectile Aberration");
     Scryfall.image_uris := None;
     Scryfall.card_faces := Some [delver_front; delver_back];
     Scryfall.set := Some (js "isd");
     Scryfall.set_name := Some (js "Innistrad");
     Scryfall.type_line := Some (js "Creature // Creature");
     Scryfall.oracle_text := None;
     Scryfall.mana_cost := None;
     Scryfall.rarity := Some (js "common") |}.

(** The capture is fine, the OCR service reads a name, and the card
    database knows no such card. *)
Definition card_unknown : Env :=
  {| GEMINI_API_KEY := Some (js "key");
     Buffer_from := decodes_to full_capture;
     gemini := fun _ _ =>
       responds 200 [] (Ok (Some [Some (js "Lightnig Bolt")]));
     scryfall := fun _ => responds 404 [] no_json |}.

(** The capture is fine, and the OCR service answers 404 with a body that
    says the model was not found. *)
Definition model_unknown : Env :=
  {| GEMINI_API_KEY := Some (js "key");
     Buffer_from := decodes_to full_capture;
     gemini := fun _ _ =>
       responds 404 (js "models/gemini-2.5-flash-lite is not found") no_json;
     scryfall := fun _ => responds 200 [] (Ok lightning_bolt) |}.

(** The OCR service is down. *)
Definition ocr_down : Env :=
  {| GEMINI_API_KEY := Some (js "key");
     Buffer_from := decodes_to full_capture;
     gemini := fun _ _ => responds 503 (js "overloaded") no_json;
     scryfall := fun _ => responds 200 [] (Ok lightning_bolt) |}.

(** The capture was taken near the right edge and is 165 wide. *)
Definition clipped : Env :=
  {| GEMINI_API_KEY := Some (js "key");
     Buffer_from := decodes_to clipped_capture;
     gemini := fun _ _ =>
       responds 200 [] (Ok (Some [Some (js "Lightning Bolt")]));
     scryfall := fun _ => responds 200 [] (Ok lightning_bolt) |}.

(** Everything works. *)
Definition all_fine : Env :=
  {| GEMINI_API_KEY := Some (js "key");
     Buffer_from := decodes_to full_capture;
     gemini := fun _ _ =>
       responds 200 [] (Ok (Some [Some (js "Lightning Bolt")]));
     scryfall := fun _ => responds 200 [] (Ok lightning_bolt) |}.

Definition dataUrl : jsstring := js "data:image/png;base64,iVBORw0KGgo=".

(** The bolt was found. *)
Definition bolt_found : result Content.LookupResult :=
  Ok {| Content.found := true;
        Content.card := Some (cardRecord lightning_bolt);
        Content.detectedName := Some (js "Lightning Bolt") |}.

(** Three calls of [lookupCard] that overlap: the second and the third
    start 10 ms and 20 ms after the first one went out, and sleep until
    100 ms after it. *)
Definition overlapping : list RateLimiter.Turn :=
  [RateLimiter.Call 1000 1000; RateLimiter.Call 1010 1010;
   RateLimiter.Call 1020 1020; RateLimiter.Wake 0 1100;
   RateLimiter.Wake 0 1100].

(** Three runs of the handler back to back, each awaited before the
    next. *)
Definition back_to_back : list RateLimiter.Turn :=
  [RateLimiter.Call 1000 1000; RateLimiter.Call 1030 1030;
   RateLimiter.Wake 0 1100; RateLimiter.Call 1150 1150;
   RateLimiter.Wake 0 1201].

(** The card database is down. *)
Definition cards_down : Env :=
  {| GEMINI_API_KEY := Some (js "key");
     Buffer_from := decodes_to full_capture;
     gemini := fun _ _ =>
       responds 200 [] (Ok (Some [Some (js "Lightning Bolt")]));
     scryfall := fun _ => responds 503 [] no_json |}.



(** A backtick typed into a search box. *)
Definition backtick_in_input : Content.KeyboardEvent :=
  {| Content.key := js "`"; Content.code := js "Backquote";
     Content.shiftKey := false; Content.tagName := js "INPUT" |}.

Definition backtick : Content.KeyboardEvent :=
  {| Content.key := js "`"; Content.code := js "Backquote";
     Content.shiftKey := false; Content.tagName := js "DIV" |}.


(** The configured key is refused by the OCR service. *)
Definition key_refused : Env :=
  {| GEMINI_API_KEY := Some (js "key");
     Buffer_from := decodes_to full_capture;
     gemini := fun _ _ => responds 403 (js "API key not valid") no_json;
     scryfall := fun _ => responds 200 [] (Ok lightning_bolt) |}.

End Sample.

(** * Properties *)

(** ** The Name Normalizer *)

Module NameNormalizer.

Import Backend.

Lemma replace_ws_runs_only_spaces (s : jsstring) :
  forall in_run,
    Forall (fun c => is_space c = true -> c = SPACE)
           (replace_ws_runs in_run s).
Proof.
  induction s as [|c s IH]; intros in_run; cbn [replace_ws_runs].
  - constructor.
  - destruct (is_space c) eqn:Hc.
    + destruct in_run; [apply IH|].
      constructor; [reflexivity | apply IH].
    + constructor; [congruence | apply IH].
Qed.

Lemma in_name_class_allowed (c : N) :
  in_name_class c = true ->
  (is_space c = true -> c = SPACE) ->
  Spec.allowed c.
Proof.
  unfold in_name_class, is_lower, is_upper, is_digit, HYPHEN, APOSTROPHE,
    SPACE, Spec.allowed.
  intros H Hsp.
  repeat rewrite orb_true_iff in H.
  repeat rewrite andb_true_iff in H.
  repeat rewrite N.leb_le in H.
  repeat rewrite N.eqb_eq in H.
  destruct H as [[[[[H|H]|H]|H]|H]|H]; auto 10.
Qed.

Lemma Forall_firstn_of {A} (P : A -> Prop) (n : nat) (l : list A) :
  Forall P l -> Forall P (firstn n l).
Proof.
  intros H. rewrite <- (firstn_skipn n l) in H.
  apply Forall_app in H. apply H.
Qed.

Lemma cleanCardName_string_allowed (s : jsstring) :
  Forall Spec.allowed (cleanCardName_string s).
Proof.
  unfold cleanCardName_string, substring0.
  apply Forall_firstn_of.
  apply Forall_forall. intros c Hin.
  apply filter_In in Hin. destruct Hin as [Hin Hclass].
  apply in_name_class_allowed; [exact Hclass|].
  pose proof (replace_ws_runs_only_spaces (trim s) false) as Hsp.
  rewrite Forall_forall in Hsp. apply Hsp, Hin.
Qed.

Lemma cleanCardName_string_length (s : jsstring) :
  List.length (cleanCardName_string s) <= 50.
Proof.
  unfold cleanCardName_string, substring0. apply firstn_le_length.
Qed.

(** C4. On every string the Name Normalizer returns (it has no failure
    path), its output has at most 50 code units, every one of them a
    letter, a digit, the space, the hyphen or the apostrophe, and the empty
    string is mapped to the empty string. *)
Theorem cleanCardName_bounded_and_safe :
  (forall s : jsstring,
      exists out,
        cleanCardName (JStr s) = Ok out
        /\ List.length out <= 50
        /\ Forall Spec.allowed out)
  /\ cleanCardName (JStr []) = Ok [].
Proof.
  split; [|reflexivity].
  intros s. destruct s as [|c s].
  - exists []. repeat split; [cbn; lia | constructor].
  - exists (cleanCardName_string (c :: s)).
    split; [reflexivity|].
    split; [apply cleanCardName_string_length
           | apply cleanCardName_string_allowed].
Qed.

(** *** What a second application repairs

    The output of the normalizer holds only characters that the
    normalizer keeps, and at most 50 of them: on such a string nothing is
    stripped and nothing is cut, so the result is trimmed and collapsed,
    and from then on the normalizer changes nothing. *)

Lemma cleanCardName_string_kept (s : jsstring) :
  Forall Spec.kept (cleanCardName_string s).
Proof.
  unfold cleanCardName_string, substring0.
  apply Forall_firstn_of.
  apply Forall_forall. intros c Hin.
  apply filter_In in Hin. destruct Hin as [Hin Hclass].
  split; [exact Hclass|].
  pose proof (replace_ws_runs_only_spaces (trim s) false) as Hsp.
  rewrite Forall_forall in Hsp. apply Hsp, Hin.
Qed.

Lemma dropWhile_kept (p : N -> bool) (s : jsstring) :
  Forall Spec.kept s -> Forall Spec.kept (dropWhile p s).
Proof.
  induction 1 as [|c s Hc Hs IH]; cbn; [constructor|].
  destruct (p c); [exact IH | constructor; assumption].
Qed.

Lemma trim_kept (s : jsstring) :
  Forall Spec.kept s -> Forall Spec.kept (trim s).
Proof.
  intros H. unfold trim.
  apply Forall_rev, dropWhile_kept, Forall_rev, dropWhile_kept, H.
Qed.

Lemma replace_ws_runs_kept (s : jsstring) :
  Forall Spec.kept s -> forall b, Forall Spec.kept (replace_ws_runs b s).
Proof.
  induction 1 as [|c s Hc Hs IH]; intros b; cbn [replace_ws_runs];
    [constructor|].
  destruct (is_space c) eqn:E.
  - destruct b; [apply IH|].
    constructor; [|apply IH]. split; [reflexivity|auto].
  - constructor; [exact Hc | apply IH].
Qed.

Lemma filter_kept (s : jsstring) :
  Forall Spec.kept s -> filter in_name_class s = s.
Proof.
  induction 1 as [|c s [Hc _] Hs IH]; cbn; [reflexivity|].
  rewrite Hc, IH. reflexivity.
Qed.

Lemma dropWhile_length (p : N -> bool) (s : jsstring) :
  List.length (dropWhile p s) <= List.length s.
Proof.
  induction s as [|c s IH]; cbn; [lia|].
  destruct (p c); cbn; lia.
Qed.

Lemma trim_length (s : jsstring) : List.length (trim s) <= List.length s.
Proof.
  unfold trim. rewrite length_rev.
  etransitivity; [apply dropWhile_length|].
  rewrite length_rev. apply dropWhile_length.
Qed.

Lemma replace_ws_runs_length (s : jsstring) :
  forall b, List.length (replace_ws_runs b s) <= List.length s.
Proof.
  induction s as [|c s IH]; intros b; cbn [replace_ws_runs]; [cbn; lia|].
  pose proof (IH true). pose proof (IH false).
  destruct (is_space c); [destruct b|]; cbn [List.length]; lia.
Qed.

(** On a short string of kept characters only the first two steps act. *)
Lemma cleanCardName_string_on_kept (s : jsstring) :
  Forall Spec.kept s -> List.length s <= 50 ->
  cleanCardName_string s = replace_ws_runs false (trim s).
Proof.
  intros Hk Hlen. unfold cleanCardName_string, substring0.
  rewrite filter_kept by apply replace_ws_runs_kept, trim_kept, Hk.
  apply firstn_all2.
  etransitivity; [apply replace_ws_runs_length|].
  etransitivity; [apply trim_length | exact Hlen].
Qed.

Lemma dropWhile_starts_clean (s : jsstring) :
  Spec.starts_clean (dropWhile is_space s) = true.
Proof.
  induction s as [|c s IH]; cbn; [reflexivity|].
  destruct (is_space c) eqn:E; [exact IH|]. cbn. rewrite E. reflexivity.
Qed.

Lemma starts_clean_dropWhile (s : jsstring) :
  Spec.starts_clean s = true -> dropWhile is_space s = s.
Proof.
  destruct s as [|c s]; cbn; [reflexivity|].
  destruct (is_space c); [discriminate | reflexivity].
Qed.

Lemma starts_clean_app (s t : jsstring) :
  Spec.starts_clean (s ++ t) = true -> Spec.starts_clean s = true.
Proof. destruct s; [reflexivity | exact (fun H => H)]. Qed.

Lemma trim_no_outer_ws (s : jsstring) : Spec.no_outer_ws (trim s) = true.
Proof.
  unfold Spec.no_outer_ws, trim.
  set (t := dropWhile is_space s).
  assert (Ht : Spec.starts_clean t = true) by apply dropWhile_starts_clean.
  set (u := dropWhile is_space (rev t)).
  assert (Hu : Spec.starts_clean u = true) by apply dropWhile_starts_clean.
  rewrite rev_involutive, Hu, andb_true_r.
  assert (Hsuffix : exists pre, rev t = pre ++ u).
  { subst u. generalize (rev t). intros l.
    induction l as [|c l [pre IH]]; [exists []; reflexivity|].
    cbn. destruct (is_space c).
    - exists (c :: pre). cbn. congruence.
    - exists []. reflexivity. }
  destruct Hsuffix as [pre Hpre].
  assert (E : t = rev u ++ rev pre).
  { rewrite <- (rev_involutive t), Hpre, rev_app_distr. reflexivity. }
  rewrite E in Ht. apply starts_clean_app in Ht. exact Ht.
Qed.

Lemma no_outer_ws_trim (s : jsstring) :
  Spec.no_outer_ws s = true -> trim s = s.
Proof.
  unfold Spec.no_outer_ws, trim. intros H.
  apply andb_true_iff in H. destruct H as [H1 H2].
  rewrite (starts_clean_dropWhile _ H1), (starts_clean_dropWhile _ H2).
  apply rev_involutive.
Qed.

Lemma replace_ws_runs_snoc (s : jsstring) (z : N) :
  is_space z = false ->
  forall b, replace_ws_runs b (s ++ [z]) = replace_ws_runs b s ++ [z].
Proof.
  intros Hz. induction s as [|c s IH]; intros b; cbn [app replace_ws_runs].
  - rewrite Hz. reflexivity.
  - destruct (is_space c); [destruct b|]; rewrite IH; reflexivity.
Qed.

Lemma replace_ws_runs_no_outer_ws (s : jsstring) :
  Spec.no_outer_ws s = true ->
  Spec.no_outer_ws (replace_ws_runs false s) = true.
Proof.
  unfold Spec.no_outer_ws. intros H.
  apply andb_true_iff in H. destruct H as [H1 H2].
  apply andb_true_iff. split.
  - destruct s as [|c s]; [reflexivity|].
    cbn in H1. apply negb_true_iff in H1.
    cbn [replace_ws_runs]. rewrite H1. cbn. rewrite H1. reflexivity.
  - destruct (rev s) as [|z r] eqn:E.
    + apply (f_equal (@rev N)) in E. rewrite rev_involutive in E.
      subst s. reflexivity.
    + apply (f_equal (@rev N)) in E. rewrite rev_involutive in E.
      cbn in E. subst s. cbn in H2. apply negb_true_iff in H2.
      rewrite (@replace_ws_runs_snoc _ z H2), rev_app_distr. cbn.
      rewrite H2. reflexivity.
Qed.

Lemma replace_ws_runs_no_ws_run (s : jsstring) :
  Spec.starts_clean (replace_ws_runs true s) = true
  /\ Spec.no_ws_run (replace_ws_runs true s) = true
  /\ Spec.no_ws_run (replace_ws_runs false s) = true.
Proof.
  induction s as [|c s (IHhead & IHtrue & IHfalse)];
    cbn [replace_ws_runs]; [auto|].
  destruct (is_space c) eqn:E.
  - repeat split; try assumption.
    cbn [Spec.no_ws_run]. rewrite IHtrue, andb_true_r.
    destruct (replace_ws_runs true s) as [|d rest]; [reflexivity|].
    cbn in IHhead. apply negb_true_iff in IHhead.
    rewrite IHhead, andb_false_r. reflexivity.
  - assert (H : Spec.no_ws_run (c :: replace_ws_runs false s) = true).
    { cbn [Spec.no_ws_run]. rewrite IHfalse, andb_true_r, E.
      destruct (replace_ws_runs false s); reflexivity. }
    repeat split; try assumption. cbn. rewrite E. reflexivity.
Qed.

Lemma no_ws_run_replace_ws_runs (s : jsstring) :
  Forall Spec.kept s -> Spec.no_ws_run s = true ->
  replace_ws_runs false s = s
  /\ (Spec.starts_clean s = true -> replace_ws_runs true s = s).
Proof.
  induction 1 as [|c s [_ Hc] Hs IH]; intros Hrun; [auto|].
  cbn [Spec.no_ws_run] in Hrun. apply andb_true_iff in Hrun.
  destruct Hrun as [Hpair Hrun]. destruct (IH Hrun) as [IHf IHt].
  cbn [replace_ws_runs Spec.starts_clean].
  destruct (is_space c) eqn:E.
  - split; [|discriminate].
    rewrite (Hc eq_refl). f_equal. apply IHt.
    destruct s as [|d s]; [reflexivity|].
    cbn [andb] in Hpair. exact Hpair.
  - rewrite IHf. auto.
Qed.

(** From the second application on the normalizer changes nothing, and its
    output is trimmed and collapsed. *)
Lemma cleanCardName_string_settles (s : jsstring) :
  let once := cleanCardName_string s in
  cleanCardName_string (cleanCardName_string once) = cleanCardName_string once
  /\ Spec.normalized (cleanCardName_string once) = true.
Proof.
  intros once.
  assert (Hk1 : Forall Spec.kept once) by apply cleanCardName_string_kept.
  assert (Hl1 : List.length once <= 50) by apply cleanCardName_string_length.
  set (twice := cleanCardName_string once).
  assert (E2 : twice = replace_ws_runs false (trim once))
    by (apply cleanCardName_string_on_kept; assumption).
  assert (Hk2 : Forall Spec.kept twice) by apply cleanCardName_string_kept.
  assert (Hl2 : List.length twice <= 50) by apply cleanCardName_string_length.
  assert (Ho : Spec.no_outer_ws twice = true)
    by (rewrite E2; apply replace_ws_runs_no_outer_ws, trim_no_outer_ws).
  assert (Hr : Spec.no_ws_run twice = true)
    by (rewrite E2; apply replace_ws_runs_no_ws_run).
  split.
  - rewrite (cleanCardName_string_on_kept Hk2 Hl2).
    rewrite (no_outer_ws_trim _ Ho).
    apply (no_ws_run_replace_ws_runs Hk2 Hr).
  - unfold Spec.normalized. rewrite Ho, Hr. reflexivity.
Qed.

(** C5, at the input ["a @ b"]. The white space runs are collapsed before
    the other characters are stripped, so the two spaces that surrounded
    the stripped character end up side by side: the output is not collapsed,
    and normalizing it again changes it. In the same way a stripped first
    character leaves a leading space, and the cut at 50 a trailing one. *)
Theorem cleanCardName_not_idempotent :
  cleanCardName (JStr (js "a @ b")) = Ok (js "a  b")
  /\ cleanCardName (JStr (js "a  b")) = Ok (js "a b")
  /\ Spec.normalized (js "a  b") = false
  /\ cleanCardName (JStr (js "@ a")) = Ok (js " a")
  /\ cleanCardName
       (JStr (js "Aaaaaaaaa Bbbbbbbbb Ccccccccc Ddddddddd Eeeeeeeee Fffffffff"))
     = Ok (js "Aaaaaaaaa Bbbbbbbbb Ccccccccc Ddddddddd Eeeeeeeee ").
Proof.
  repeat split; vm_compute; reflexivity.
Qed.

End NameNormalizer.

(** ** The Image Validator *)

Module ImageValidator.

Import Backend.

Lemma to_N_inj (a b : Byte.byte) : Byte.to_N a = Byte.to_N b -> a = b.
Proof.
  intros H.
  pose proof (Byte.of_to_N a) as Ha. rewrite H, Byte.of_to_N in Ha.
  congruence.
Qed.

Lemma to_N_eqb (a b : Byte.byte) :
  (Byte.to_N a =? Byte.to_N b)%N = true <-> a = b.
Proof.
  rewrite N.eqb_eq. split; [apply to_N_inj | congruence].
Qed.

(** A buffer of at least 24 bytes, with its header spelled out. *)
Lemma header_bytes (buffer : list Byte.byte) :
  24 <= List.length buffer ->
  exists b0 b1 b2 b3 b4 b5 b6 b7 b8 b9 b10 b11 b12 b13 b14 b15
         w0 w1 w2 w3 h0 h1 h2 h3 rest,
    buffer = [b0; b1; b2; b3; b4; b5; b6; b7; b8; b9; b10; b11; b12; b13;
              b14; b15; w0; w1; w2; w3; h0; h1; h2; h3] ++ rest.
Proof.
  intros H.
  do 24 (destruct buffer as [|? buffer]; [cbn in H; lia|]).
  repeat eexists.
Qed.

Lemma readUInt32BE_field32 (buffer : list Byte.byte) :
  24 <= List.length buffer ->
  readUInt32BE buffer 16 = Ok (Spec.field32 buffer 16)
  /\ readUInt32BE buffer 20 = Ok (Spec.field32 buffer 20).
Proof.
  intros H. apply header_bytes in H.
  destruct H as (b0&b1&b2&b3&b4&b5&b6&b7&b8&b9&b10&b11&b12&b13&b14&b15
                 &w0&w1&w2&w3&h0&h1&h2&h3&rest&->).
  unfold readUInt32BE, byte_at, Spec.field32, Spec.big_endian.
  cbn [nth_error app option_map Nat.add firstn skipn fold_left].
  change (2 ^ 24)%N with 16777216%N.
  change (2 ^ 16)%N with 65536%N.
  change (2 ^ 8)%N with 256%N.
  split; f_equal; lia.
Qed.

Lemma magic_checked (buffer : list Byte.byte) :
  24 <= List.length buffer ->
  byte_differs buffer 0 0x89 || byte_differs buffer 1 0x50
  || byte_differs buffer 2 0x4E || byte_differs buffer 3 0x47 = false
  <-> Spec.png_signature buffer.
Proof.
  intros H. apply header_bytes in H.
  destruct H as (b0&b1&b2&b3&b4&b5&b6&b7&b8&b9&b10&b11&b12&b13&b14&b15
                 &w0&w1&w2&w3&h0&h1&h2&h3&rest&->).
  unfold byte_differs, byte_at, Spec.png_signature, Spec.PNG_MAGIC.
  cbn [nth_error app option_map firstn].
  change 0x89%N with (Byte.to_N Byte.x89).
  change 0x50%N with (Byte.to_N Byte.x50).
  change 0x4E%N with (Byte.to_N Byte.x4e).
  change 0x47%N with (Byte.to_N Byte.x47).
  repeat rewrite orb_false_iff.
  repeat rewrite negb_false_iff.
  repeat rewrite to_N_eqb.
  split.
  - intros [[[-> ->] ->] ->]. reflexivity.
  - intros E. injection E as -> -> -> ->. auto.
Qed.

(** What the [try] block computes on a decoded buffer. *)
Lemma validateImage_decoded (env : Env) (payload : JsVal)
      (buffer : list Byte.byte) :
  Buffer_from env payload = Ok buffer ->
  validateImage env payload = Ok true
  <-> (24 <= List.length buffer
       /\ Spec.png_signature buffer
       /\ Spec.field32 buffer 16 = EXPECTED_WIDTH
       /\ Spec.field32 buffer 20 = EXPECTED_HEIGHT).
Proof.
  intros Hdec. unfold validateImage, validateImage_try. rewrite Hdec.
  destruct (List.length buffer <? 24)%nat eqn:Hlen.
  - apply Nat.ltb_lt in Hlen. cbn [orb].
    split; [discriminate | intros [H _]; lia].
  - apply Nat.ltb_ge in Hlen. cbn [orb].
    pose proof (magic_checked buffer Hlen) as Hmagic.
    destruct (readUInt32BE_field32 buffer Hlen) as [Hw Hh].
    match goal with
    | |- context [if ?c then _ else _] => destruct c eqn:Hc
    end.
    + split; [discriminate|].
      intros (_ & Hsig & _). apply Hmagic in Hsig. discriminate.
    + rewrite Hw, Hh.
      split.
      * intros E. injection E as E. apply andb_true_iff in E.
        destruct E as [E1 E2]. apply N.eqb_eq in E1, E2.
        repeat split; try assumption.
        apply Hmagic. reflexivity.
      * intros (_ & _ & E1 & E2). rewrite E1, E2. reflexivity.
Qed.

Lemma validateImage_total (env : Env) (payload : JsVal) :
  exists b, validateImage env payload = Ok b.
Proof.
  unfold validateImage.
  destruct (validateImage_try env payload); eauto.
Qed.

Lemma not_true_false (env : Env) (payload : JsVal) :
  validateImage env payload <> Ok true ->
  validateImage env payload = Ok false.
Proof.
  destruct (validateImage_total env payload) as [[|] E]; congruence.
Qed.

(** C2. The Image Validator returns a boolean on every payload, never an
    exception. It returns false when the payload cannot be decoded, when
    the decoded buffer is shorter than 24 bytes, when its first bytes are
    not the PNG magic, and when the 32-bit fields at offsets 16 and 20 are
    not 250 and 120; it returns true exactly when the buffer has the
    length, the magic and both dimensions. *)
Theorem validateImage_spec (env : Env) (payload : JsVal) :
  (exists b, validateImage env payload = Ok b)
  /\ (forall m,
         Buffer_from env payload = Throw m ->
         validateImage env payload = Ok false)
  /\ (forall buffer,
         Buffer_from env payload = Ok buffer ->
         (List.length buffer < Spec.MIN_HEADER_LENGTH ->
          validateImage env payload = Ok false)
         /\ (~ Spec.png_signature buffer ->
             validateImage env payload = Ok false)
         /\ (Spec.field32 buffer Spec.WIDTH_OFFSET <> 250%N
             \/ Spec.field32 buffer Spec.HEIGHT_OFFSET <> 120%N ->
             validateImage env payload = Ok false)
         /\ (validateImage env payload = Ok true
             <-> Spec.MIN_HEADER_LENGTH <= List.length buffer
                 /\ Spec.png_signature buffer
                 /\ Spec.field32 buffer Spec.WIDTH_OFFSET = 250%N
                 /\ Spec.field32 buffer Spec.HEIGHT_OFFSET = 120%N)).
Proof.
  split; [apply validateImage_total|].
  split.
  - intros m Hdec. unfold validateImage, validateImage_try.
    rewrite Hdec. reflexivity.
  - intros buffer Hdec.
    pose proof (validateImage_decoded env payload Hdec) as Hiff.
    unfold Spec.MIN_HEADER_LENGTH, Spec.WIDTH_OFFSET, Spec.HEIGHT_OFFSET.
    unfold EXPECTED_WIDTH, EXPECTED_HEIGHT in Hiff.
    split; [|split; [|split]].
    + intros Hlen. apply not_true_false. intros E.
      apply Hiff in E. lia.
    + intros Hsig. apply not_true_false. intros E.
      apply Hiff in E. tauto.
    + intros Hdim. apply not_true_false. intros E.
      apply Hiff in E. tauto.
    + exact Hiff.
Qed.

(** The header of a 250 by 120 PNG file is accepted. *)
Lemma validateImage_spec_witness :
  validateImage Sample.all_fine (JStr (js "iVBORw0KGgo=")) = Ok true.
Proof.
  apply (proj2 (proj2 (validateImage_spec Sample.all_fine
                         (JStr (js "iVBORw0KGgo=")))) Sample.full_capture).
  - reflexivity.
  - repeat split; vm_compute; reflexivity.
Defined.

End ImageValidator.

(** ** The handler and the pipeline around it *)

Module Pipeline.

Import Backend.

Lemma bind_lift_Ok {A B} (a : A) (f : A -> M B) :
  bind (lift (Ok a)) f = f a.
Proof. unfold bind, lift. destruct (f a). reflexivity. Qed.

(** The event the service worker's request arrives as. *)
Lemma lookup_path_is_not_by_name :
  endsWith (js "/lookup-by-name") (js "/lookup") = false.
Proof. reflexivity. Qed.

(** A payload that fails validation stops the handler before any call. *)
Lemma handler_invalid_image (env : Env) (event : Request.Event)
      (b : Request.Body) (image : jsstring) :
  Request.body event = Ok b ->
  endsWith (js "/lookup-by-name") (Request.path event) = false ->
  Request.image b = JStr image ->
  validateImage env (JStr (strip_data_url image)) = Ok false ->
  handler env event
  = ([], {| statusCode := 400;
            body := ErrorBody (match image with
                               | [] => js "Missing image"
                               | _ :: _ => js "Invalid image"
                               end) |}).
Proof.
  intros Hbody Hpath Himage Hvalid.
  unfold handler, handler_try.
  rewrite Hbody. cbn [lift bind]. rewrite Hpath, Himage.
  destruct image as [|c image]; [reflexivity|].
  cbn [lift bind truthy negb image_replace app].
  rewrite Hvalid. reflexivity.
Qed.

(** What the overlay shows once the service worker reported a failure. *)
Lemma failure_is_ErrorFallback (e : jsstring) :
  Content.handleCardLookup_settled
    (Content.performCardLookup_settled
       (Content.Response (Background.Failure e)))
    (Content.dom (Content.step Content.idle Content.Backtick))
  = Content.ErrorFallback.
Proof. destruct e; reflexivity. Qed.

(** C3. Whatever image the capture produced, if the payload the handler
    extracts from the request fails validation (a PNG header with other
    dimensions included), then the handler answers 400 with a bad-image
    reason without having issued any call, to the OCR service or to the
    card database, and the overlay ends in ErrorFallback. *)
Theorem invalid_image_skips_OCR (env : Env) (imageDataUrl : jsstring) :
  validateImage env
    (JStr (strip_data_url (Background.dataUrlToBase64 imageDataUrl)))
  = Ok false ->
  (exists reason,
      Background.post_lookup env (Background.dataUrlToBase64 imageDataUrl)
      = ([], Responded {| status := 400; text := [];
                          json := Ok (ErrorBody reason) |})
      /\ (reason = js "Missing image" \/ reason = js "Invalid image"))
  /\ Content.lookup env imageDataUrl = ([], Content.ErrorFallback).
Proof.
  intros Hvalid.
  set (base64 := Background.dataUrlToBase64 imageDataUrl) in *.
  assert (Hh : handler env (Background.lookup_event base64)
               = ([], {| statusCode := 400;
                         body := ErrorBody (match base64 with
                                            | [] => js "Missing image"
                                            | _ :: _ => js "Invalid image"
                                            end) |})).
  { eapply handler_invalid_image; try reflexivity. exact Hvalid. }
  split.
  - eexists. unfold Background.post_lookup. rewrite Hh.
    split; [reflexivity|]. destruct base64; auto.
  - unfold Content.lookup, Background.lookupCardFromImage,
      Background.post_lookup.
    fold base64. rewrite Hh.
    cbn [Background.lookup_settled statusCode].
    match goal with
    | |- context [negb (ok ?r)] => change (negb (ok r)) with true
    end.
    cbn [Background.reply]. rewrite failure_is_ErrorFallback. reflexivity.
Qed.

(** A capture cut to 165 by 120 at the window's right edge. *)
Lemma invalid_image_skips_OCR_witness :
  (exists reason,
      Background.post_lookup Sample.clipped
        (Background.dataUrlToBase64 Sample.dataUrl)
      = ([], Responded {| status := 400; text := [];
                          json := Ok (ErrorBody reason) |})
      /\ (reason = js "Missing image" \/ reason = js "Invalid image"))
  /\ Content.lookup Sample.clipped Sample.dataUrl
     = ([], Content.ErrorFallback).
Proof.
  apply (invalid_image_skips_OCR Sample.clipped Sample.dataUrl).
  vm_compute. reflexivity.
Defined.

(** When everything works the overlay shows the card that was found. *)
Example lightning_bolt_is_resolved :
  Content.lookup Sample.all_fine Sample.dataUrl
  = ([CallGemini (js "iVBORw0KGgo=") (js "key");
      CallScryfall (js "Lightning Bolt")],
     Content.Resolved (cardRecord Sample.lightning_bolt)).
Proof. vm_compute. reflexivity. Qed.

(** *** Messages that contain ['not found'] *)

Lemma startsWith_app (n rest : jsstring) : startsWith n (n ++ rest) = true.
Proof.
  unfold startsWith.
  induction n as [|c n IH]; cbn; [reflexivity|].
  rewrite N.eqb_refl. exact IH.
Qed.

Lemma includes_app_r (n a s : jsstring) :
  includes n s = true -> includes n (a ++ s) = true.
Proof.
  intros H. induction a as [|c a IH]; [exact H|].
  cbn [app includes]. rewrite IH. apply orb_true_r.
Qed.

Lemma includes_middle (n a b : jsstring) : includes n (a ++ n ++ b) = true.
Proof.
  apply includes_app_r.
  destruct (n ++ b) eqn:E; cbn [includes]; rewrite <- E;
    rewrite startsWith_app; reflexivity.
Qed.

Lemma card_not_found_caught (cardName : jsstring) :
  handler_catch (js "Card not found: " ++ [34%N] ++ cardName ++ [34%N])
  = notFound.
Proof.
  unfold handler_catch.
  change (js "Card not found: " ++ [34%N] ++ cardName ++ [34%N])
    with (js "Card " ++ js "not found"
          ++ (js ": " ++ [34%N] ++ cardName ++ [34%N])).
  rewrite includes_middle. reflexivity.
Qed.

(** A 404 of the card database makes [lookupCard] throw, and the handler
    answers [{ found: false }]. *)
Lemma lookupCard_404 (env : Env) (cardName : jsstring)
      (resp : Response Scryfall.Card) :
  scryfall env cardName = Responded resp ->
  status resp = 404%N ->
  lookupCard env cardName
  = ([CallScryfall cardName],
     Throw (js "Card not found: " ++ [34%N] ++ cardName ++ [34%N])).
Proof.
  intros Hresp Hstatus. unfold lookupCard, fetch.
  rewrite Hresp. cbn [bind]. unfold ok. rewrite Hstatus. reflexivity.
Qed.

(** An error status of the OCR service, other than 401, 403 and 429, makes
    [performOCR] throw a message that ends with the response body. *)
Lemma performOCR_service_error (env : Env) (base64 apiKey : jsstring)
      (resp : Response GeminiData) :
  gemini env base64 apiKey = Responded resp ->
  ok resp = false ->
  status resp <> 401%N -> status resp <> 403%N -> status resp <> 429%N ->
  performOCR env base64 apiKey
  = ([CallGemini base64 apiKey],
     Throw (js "Gemini API error: " ++ N_to_jsstring (status resp)
            ++ js " - " ++ text resp)).
Proof.
  intros Hresp Hok H401 H403 H429. unfold performOCR, fetch.
  rewrite Hresp. cbn [bind]. rewrite Hok. cbn [negb].
  apply N.eqb_neq in H401, H403, H429. rewrite H401, H403, H429.
  reflexivity.
Qed.

(** The handler on a lookup request, up to the OCR call. *)
Lemma handler_lookup_OCR (env : Env) (image k ey : jsstring) (kc : N) :
  image <> [] ->
  validateImage env (JStr (strip_data_url image)) = Ok true ->
  GEMINI_API_KEY env = Some (kc :: ey) ->
  k = kc :: ey ->
  handler_try env (Background.lookup_event image)
  = (ocrText <- performOCR env (strip_data_url image) k ;;
     match ocrText with
     | Some (c :: t) =>
         cardName <- lift (cleanCardName (JStr (c :: t))) ;;
         match cardName with
         | [] => ret notFound
         | _ :: _ =>
             card <- lookupCard env cardName ;;
             ret {| statusCode := 200;
                    body := FoundBody card (Some cardName) |}
         end
     | _ => ret notFound
     end).
Proof.
  intros Himage Hvalid Hkey ->.
  unfold handler_try, Background.lookup_event.
  cbn [Request.body Request.path Request.image].
  rewrite bind_lift_Ok. cbv beta.
  rewrite lookup_path_is_not_by_name.
  destruct image as [|c image]; [congruence|].
  cbn [Request.image truthy negb image_replace].
  rewrite bind_lift_Ok, Hvalid, bind_lift_Ok. cbn [negb]. rewrite Hkey.
  reflexivity.
Qed.

(** When the OCR service reads a name and the card database answers 404,
    the handler's response is [{ found: false }], with no [detectedName]
    in it, and the prompt comes up empty. *)
Lemma not_found_prompt (env : Env) (imageDataUrl key : jsstring)
      (calls : list Call) (detected cardName : jsstring)
      (resp : Response Scryfall.Card) :
  let image := Background.dataUrlToBase64 imageDataUrl in
  image <> [] ->
  validateImage env (JStr (strip_data_url image)) = Ok true ->
  GEMINI_API_KEY env = Some key -> key <> [] ->
  performOCR env (strip_data_url image) key = (calls, Ok (Some detected)) ->
  detected <> [] ->
  cleanCardName_string detected = cardName -> cardName <> [] ->
  scryfall env cardName = Responded resp ->
  status resp = 404%N ->
  handler env (Background.lookup_event image)
  = (calls ++ [CallScryfall cardName], notFound)
  /\ Content.lookup env imageDataUrl
     = (calls ++ [CallScryfall cardName], Content.NoMatch []).
Proof.
  intros image Himage Hvalid Hkey Hk Hocr Hd Hclean Hn Hresp Hstatus.
  destruct key as [|kc ey]; [congruence|].
  destruct detected as [|c t]; [congruence|].
  assert (Hh : handler env (Background.lookup_event image)
               = (calls ++ [CallScryfall cardName], notFound)).
  { unfold handler.
    rewrite (handler_lookup_OCR env (k := kc :: ey) Himage Hvalid Hkey eq_refl).
    rewrite Hocr. cbn [bind lift cleanCardName truthy negb].
    rewrite Hclean. destruct cardName as [|n ame]; [congruence|].
    rewrite (lookupCard_404 env (n :: ame) Hresp Hstatus).
    cbn [bind]. rewrite card_not_found_caught. reflexivity. }
  split; [exact Hh|].
  unfold Content.lookup, Background.lookupCardFromImage,
    Background.post_lookup.
  fold image. rewrite Hh. reflexivity.
Qed.

(** C7, at a run where the OCR service reads "Lightnig Bolt" and the card
    database answers 404. The handler answers 200 with [{ found: false }]
    and the overlay ends in NoMatch, not in ErrorFallback; but the response
    carries no [detectedName], so the prompt's input is empty and the
    detected text is lost. *)
Theorem not_found_prompt_is_not_prefilled :
  handler Sample.card_unknown
    (Background.lookup_event (Background.dataUrlToBase64 Sample.dataUrl))
  = ([CallGemini (js "iVBORw0KGgo=") (js "key");
      CallScryfall (js "Lightnig Bolt")],
     {| statusCode := 200; body := NotFoundBody |})
  /\ Content.lookup Sample.card_unknown Sample.dataUrl
     = ([CallGemini (js "iVBORw0KGgo=") (js "key");
         CallScryfall (js "Lightnig Bolt")],
        Content.NoMatch [])
  /\ Content.NoMatch [] <> Content.NoMatch (js "Lightnig Bolt")
  /\ Content.NoMatch [] <> Content.ErrorFallback.
Proof.
  split; [vm_compute; reflexivity|].
  split; [vm_compute; reflexivity|].
  split; discriminate.
Qed.

(** C10. Whatever the [try] block of the handler throws, the response is
    200 with [{ found: false }] when the message contains ['not found'],
    and 500 with the message otherwise. The card database's 404 is such a
    message, and so is every error response of the OCR service (other than
    401, 403 and 429) whose body contains ['not found']: both get the same
    response. *)
Theorem not_found_in_any_message :
  (forall env event calls message,
      handler_try env event = (calls, Throw message) ->
      handler env event
      = (calls,
         if includes (js "not found") message
         then {| statusCode := 200; body := NotFoundBody |}
         else {| statusCode := 500; body := ErrorBody message |}))
  /\ (forall env cardName resp,
         scryfall env cardName = Responded resp ->
         status resp = 404%N ->
         exists message,
           lookupCard env cardName = ([CallScryfall cardName], Throw message)
           /\ handler_catch message
              = {| statusCode := 200; body := NotFoundBody |})
  /\ (forall env base64 apiKey resp,
         gemini env base64 apiKey = Responded resp ->
         ok resp = false ->
         status resp <> 401%N -> status resp <> 403%N ->
         status resp <> 429%N ->
         includes (js "not found") (text resp) = true ->
         exists message,
           performOCR env base64 apiKey
           = ([CallGemini base64 apiKey], Throw message)
           /\ handler_catch message
              = {| statusCode := 200; body := NotFoundBody |}).
Proof.
  split; [|split].
  - intros env event calls message H. unfold handler. rewrite H.
    reflexivity.
  - intros env cardName resp Hresp Hstatus. eexists.
    split; [apply (lookupCard_404 env cardName Hresp Hstatus)|].
    apply card_not_found_caught.
  - intros env base64 apiKey resp Hresp Hok H401 H403 H429 Hin. eexists.
    split;
      [apply (performOCR_service_error env base64 apiKey Hresp Hok
                H401 H403 H429)|].
    unfold handler_catch.
    rewrite app_assoc, app_assoc. rewrite includes_app_r by exact Hin.
    reflexivity.
Qed.

(** The OCR service answers 404 "... is not found": the handler's response
    is that of a card that was not found. The OCR service answers 503: the
    response is 500 with the message. *)
Lemma not_found_in_any_message_witness :
  handler Sample.model_unknown (Background.lookup_event (js "iVBORw0KGgo="))
  = ([CallGemini (js "iVBORw0KGgo=") (js "key")],
     {| statusCode := 200; body := NotFoundBody |})
  /\ handler Sample.ocr_down (Background.lookup_event (js "iVBORw0KGgo="))
     = ([CallGemini (js "iVBORw0KGgo=") (js "key")],
        {| statusCode := 500;
           body := ErrorBody (js "Gemini API error: 503 - overloaded") |}).
Proof.
  split.
  - apply (proj1 not_found_in_any_message Sample.model_unknown
             (Background.lookup_event (js "iVBORw0KGgo="))
             [CallGemini (js "iVBORw0KGgo=") (js "key")]
             (js "Gemini API error: 404 - "
              ++ js "models/gemini-2.5-flash-lite is not found")).
    vm_compute. reflexivity.
  - apply (proj1 not_found_in_any_message Sample.ocr_down
             (Background.lookup_event (js "iVBORw0KGgo="))
             [CallGemini (js "iVBORw0KGgo=") (js "key")]
             (js "Gemini API error: 503 - overloaded")).
    vm_compute. reflexivity.
Defined.

End Pipeline.

(** ** The Card Resolver's record *)

Module CardResolver.

Import Backend.

Lemma normal_or_large_preferred (uris : Scryfall.ImageUris) :
  normal_or_large (Some uris) = Spec.preferred_url uris.
Proof.
  unfold normal_or_large, Spec.preferred_url, or_else, opt_bind, truthy_str.
  destruct (Scryfall.normal uris) as [[|c url]|]; reflexivity.
Qed.

Lemma backImageUrl_assigned (c : Scryfall.Card) :
  backImageUrl (cardRecord c) <> None
  <-> Spec.two_faces_with_independent_images c.
Proof.
  unfold cardRecord, Spec.two_faces_with_independent_images, isDoubleFaced,
    face, opt_bind.
  cbn [backImageUrl].
  destruct (Scryfall.card_faces c) as [faces|] eqn:Hfaces.
  - destruct (Scryfall.image_uris c) as [top|] eqn:Htop.
    + split; [congruence|].
      intros (front & back & others & uris & _ & H & _). discriminate.
    + destruct faces as [|front [|back others]]; cbn [nth_error].
      * split; [congruence|].
        intros (front & back & others & uris & H & _). discriminate.
      * split; [congruence|].
        intros (front' & back & others & uris & H & _). discriminate.
      * destruct (Scryfall.face_image_uris back) as [uris|] eqn:Huris.
        -- split; [|discriminate].
           intros _. exists front, back, others, uris. auto.
        -- split; [congruence|].
           intros (front' & back' & others' & uris & H & _ & H').
           injection H as _ <- _. congruence.
  - split.
    + destruct (Scryfall.image_uris c); congruence.
    + intros (front & back & others & uris & H & _). discriminate.
Qed.

(** C6. The record produced from a source card has its [backImageUrl]
    assigned if and only if the source has two faces with independent
    face images, and then to the second face's image URL ("normal", else
    "large"); on a single-faced source it is never assigned; and the
    [imageUrl] is always the front's own URL, "normal" when there is one
    and "large" otherwise. *)
Theorem backImageUrl_iff_two_faces (c : Scryfall.Card) :
  (backImageUrl (cardRecord c) <> None
   <-> Spec.two_faces_with_independent_images c)
  /\ (forall front back others uris,
         Scryfall.card_faces c = Some (front :: back :: others) ->
         Scryfall.image_uris c = None ->
         Scryfall.face_image_uris back = Some uris ->
         backImageUrl (cardRecord c) = Some (Spec.preferred_url uris))
  /\ (Spec.single_faced c -> backImageUrl (cardRecord c) = None)
  /\ imageUrl (cardRecord c)
     = match Spec.front_image c with
       | Some uris => Spec.preferred_url uris
       | None => None
       end.
Proof.
  split; [apply backImageUrl_assigned|].
  split; [|split].
  - intros front back others uris Hfaces Htop Huris.
    unfold cardRecord, isDoubleFaced, face, opt_bind. cbn [backImageUrl].
    rewrite Hfaces, Htop. cbn [nth_error]. rewrite Huris.
    rewrite normal_or_large_preferred. reflexivity.
  - intros Hsingle.
    destruct (backImageUrl (cardRecord c)) eqn:E; [|reflexivity].
    assert (H : backImageUrl (cardRecord c) <> None) by congruence.
    apply backImageUrl_assigned in H.
    destruct H as (front & back & others & uris & Hfaces & _).
    unfold Spec.single_faced in Hsingle. rewrite Hfaces in Hsingle.
    contradiction.
  - unfold cardRecord, Spec.front_image, face, opt_bind. cbn [imageUrl].
    destruct (Scryfall.image_uris c) as [top|].
    + apply normal_or_large_preferred.
    + destruct (Scryfall.card_faces c) as [[|front faces]|];
        cbn [nth_error]; try reflexivity.
      destruct (Scryfall.face_image_uris front) as [uris|];
        [apply normal_or_large_preferred | reflexivity].
Qed.

(** A transforming card gets the back face's "normal" URL. *)
Lemma backImageUrl_iff_two_faces_witness :
  backImageUrl (cardRecord Sample.delver)
  = Some (Some (js "https://cards.scryfall.io/normal/back/delver.jpg")).
Proof.
  exact (proj1 (proj2 (backImageUrl_iff_two_faces Sample.delver))
           Sample.delver_front Sample.delver_back []
           {| Scryfall.normal :=
                Some (js "https://cards.scryfall.io/normal/back/delver.jpg");
              Scryfall.large :=
                Some (js "https://cards.scryfall.io/large/back/delver.jpg") |}
           eq_refl eq_refl eq_refl).
Defined.

End CardResolver.

(** ** The Region Capturer *)

Module RegionCapturer.

Import Content.

Local Open Scope Q_scope.

(** The region never extends past 0 or the window's edges. *)
Lemma regionBounds_within (cursorX cursorY w h innerWidth innerHeight : Q) :
  0 <= startX (regionBounds cursorX cursorY w h innerWidth innerHeight)
  /\ 0 <= startY (regionBounds cursorX cursorY w h innerWidth innerHeight)
  /\ endX (regionBounds cursorX cursorY w h innerWidth innerHeight)
     <= innerWidth
  /\ endY (regionBounds cursorX cursorY w h innerWidth innerHeight)
     <= innerHeight.
Proof.
  unfold regionBounds. cbn [startX startY endX endY].
  repeat split; (apply Q.le_max_l || apply Q.le_min_l).
Qed.


(** C8, at the cursor (1900, 500) of a 1920 by 1080 window. The region
    starts at 1837.5 and is cut at the window's right edge: it is 82.5 wide
    and the canvas is 165 by 120, not 250 by 120; the Image Validator then
    rejects the capture. At the cursor (10, 500), near the left edge, the
    region shifts to start at 0 and the canvas has the full 250 by 120. *)
Theorem capture_near_right_edge_is_cut :
  startX (regionBounds 1900 500 regionWidth regionHeight 1920 1080)
  == 3675 # 2
  /\ endX (regionBounds 1900 500 regionWidth regionHeight 1920 1080)
     == 1920
  /\ fst (captureSize 1900 500 1920 1080) == 165
  /\ snd (captureSize 1900 500 1920 1080) == 120
  /\ startX (regionBounds 10 500 regionWidth regionHeight 1920 1080) == 0
  /\ fst (captureSize 10 500 1920 1080) == 250
  /\ snd (captureSize 10 500 1920 1080) == 120
  /\ Spec.field32 Sample.clipped_capture Spec.WIDTH_OFFSET = 165%N
  /\ Backend.validateImage Sample.clipped (JStr (js "iVBORw0KGgo="))
     = Ok false.
Proof.
  repeat split; vm_compute; reflexivity.
Qed.

End RegionCapturer.

(** ** The Lookup Orchestrator: dismissal *)

Module Orchestrator.

Import Content.

Lemma dismissOverlay_shown (d : DOM) : Spec.shown d -> dismissOverlay d = [].
Proof.
  intros [|x Hx]; [reflexivity|].
  destruct x; try reflexivity. congruence.
Qed.

Lemma step_shown (p : Page) (i : Input) :
  Spec.shown (dom p) -> Spec.shown (dom (step p i)).
Proof.
  intros H. pose proof (dismissOverlay_shown H) as Hd.
  destruct i as [| |r]; cbn [step dom].
  - unfold showLoadingSpinner. rewrite Hd. constructor. discriminate.
  - rewrite Hd. constructor.
  - destruct (inflight p); [exact H|]. cbn [dom].
    unfold handleCardLookup_settled, showCardOverlay, showFallbackInput.
    rewrite Hd. cbn [dismissOverlay remove_by_id app].
    destruct r as [result|e]; [|constructor; discriminate].
    destruct (found result), (card result) as [c|];
      try (constructor; discriminate).
    destruct (truthy_str (Backend.imageUrl c)); constructor; discriminate.
Qed.

Lemma run_shown (inputs : list Input) :
  forall p, Spec.shown (dom p) -> Spec.shown (dom (run p inputs)).
Proof.
  induction inputs as [|i inputs IH]; intros p H; [exact H|].
  cbn [run fold_left]. apply IH, step_shown, H.
Qed.

Lemma settled_on_empty_page (r : result LookupResult) :
  handleCardLookup_settled r [] = Spec.rendered r.
Proof.
  destruct r as [result|e]; [|reflexivity].
  unfold handleCardLookup_settled, Spec.rendered.
  destruct (found result), (card result) as [c|]; try reflexivity.
  destruct (Backend.imageUrl c) as [[|u rl]|]; reflexivity.
Qed.

Lemma rendered_not_idle (r : result LookupResult) : Spec.rendered r <> [].
Proof.
  destruct r as [result|e]; [|discriminate].
  unfold Spec.rendered.
  destruct (found result), (card result) as [c|]; try discriminate.
  destruct (Backend.imageUrl c) as [[|u rl]|]; discriminate.
Qed.

(** C9, as the code has it. Whatever happened on the page before, a
    dismissal while a lookup is in flight empties the page at once (the
    orchestrator is back to Idle) and leaves the lookup in flight; when its
    outcome arrives it is rendered all the same, as the card overlay, the
    NoMatch prompt or the ErrorFallback prompt, and the page is not idle
    any more. *)
Theorem dismissal_does_not_drop_the_result
        (inputs : list Input) (r : result LookupResult) :
  0 < inflight (run idle inputs) ->
  dom (step (run idle inputs) Dismiss) = []
  /\ inflight (step (run idle inputs) Dismiss) = inflight (run idle inputs)
  /\ dom (step (step (run idle inputs) Dismiss) (Settled r))
     = Spec.rendered r
  /\ dom (step (step (run idle inputs) Dismiss) (Settled r)) <> [].
Proof.
  intros Hin.
  assert (Hs : Spec.shown (dom (run idle inputs)))
    by (apply run_shown; constructor).
  assert (Hd : dom (step (run idle inputs) Dismiss) = [])
    by (cbn [step dom]; apply dismissOverlay_shown, Hs).
  assert (Hr : dom (step (step (run idle inputs) Dismiss) (Settled r))
               = Spec.rendered r).
  { cbn [step dom inflight].
    destruct (inflight (run idle inputs)); [lia|].
    cbn [dom]. rewrite (dismissOverlay_shown Hs).
    apply settled_on_empty_page. }
  repeat split; try assumption.
  rewrite Hr. apply rendered_not_idle.
Qed.

(** The trigger, a dismissal while the lookup is in flight, and then the
    answer: the card is found. *)
Lemma dismissal_does_not_drop_the_result_witness :
  dom (run idle [Backtick; Dismiss]) = []
  /\ inflight (run idle [Backtick; Dismiss]) = 1
  /\ dom (run idle [Backtick; Dismiss; Settled Sample.bolt_found])
     = Spec.rendered Sample.bolt_found
  /\ dom (run idle [Backtick; Dismiss; Settled Sample.bolt_found]) <> [].
Proof.
  apply (dismissal_does_not_drop_the_result [Backtick] Sample.bolt_found).
  cbn. lia.
Defined.

(** C9 as stated fails: after the dismissal the page is idle, and the
    stale answer brings up the card overlay. *)
Lemma stale_result_is_rendered :
  dom (run idle [Backtick; Dismiss]) = []
  /\ dom (run idle [Backtick; Dismiss; Settled Sample.bolt_found])
     = [Backdrop; CardOverlay (Backend.cardRecord Sample.lightning_bolt)]
  /\ dom (run idle [Backtick; Dismiss; Settled Sample.bolt_found]) <> [].
Proof.
  split; [vm_compute; reflexivity|].
  split; [vm_compute; reflexivity|].
  vm_compute. discriminate.
Qed.

End Orchestrator.

(** ** The Card Resolver's pacing *)

Module Pacing.

Import RateLimiter.

Local Open Scope Z_scope.

Lemma paced_start : Spec.paced start.
Proof. split; [left; reflexivity | constructor | reflexivity]. Qed.

(** A request that goes out at least the floor after the last timestamp
    keeps the requests spaced. *)
Lemma paced_record (p : Process) (now : Z) :
  Spec.paced p ->
  lastScryfallCall p + SCRYFALL_RATE_LIMIT_MS <= now ->
  Spec.paced
    (record_and_fetch now
       {| lastScryfallCall := lastScryfallCall p;
          sleeping := [];
          issued := issued p |}).
Proof.
  intros [_ Hissued Hspaced] Hnow.
  unfold SCRYFALL_RATE_LIMIT_MS in *.
  split; cbn [record_and_fetch lastScryfallCall sleeping issued].
  - left; reflexivity.
  - constructor; [lia|].
    eapply Forall_impl; [|exact Hissued]. cbn. intros u Hu. lia.
  - cbn [spaced]. rewrite Hspaced, andb_true_r.
    apply forallb_forall. intros u Hu.
    rewrite Forall_forall in Hissued. specialize (Hissued u Hu).
    unfold SCRYFALL_RATE_LIMIT_MS. apply Z.leb_le. lia.
Qed.

Lemma delay_Some (now last d : Z) :
  delay now last = Some d -> now + d = last + SCRYFALL_RATE_LIMIT_MS.
Proof.
  unfold delay, SCRYFALL_RATE_LIMIT_MS. cbv zeta.
  destruct (_ <? _); [|discriminate].
  intros E. assert (d = 100 - (now - last)) by congruence. lia.
Qed.

Lemma delay_None (now last : Z) :
  delay now last = None -> last + SCRYFALL_RATE_LIMIT_MS <= now.
Proof.
  unfold delay, SCRYFALL_RATE_LIMIT_MS. cbv zeta.
  destruct (_ <? _) eqn:E; [discriminate|].
  intros _. apply Z.ltb_ge in E. lia.
Qed.

Lemma paced_step (clock : Z) (p : Process) (t : Turn) (turns : list Turn) :
  Spec.paced p ->
  admissible clock p (t :: turns) = true ->
  sequential p (t :: turns) = true ->
  Spec.paced (step p t).
Proof.
  intros Hp Hadm Hseq. cbn [admissible sequential] in Hadm, Hseq.
  destruct t as [now now'|i now'].
  - apply andb_true_iff in Hseq. destruct Hseq as [Hnone _].
    destruct (sleeping p) as [|s ss] eqn:Hsl; [|discriminate].
    repeat (apply andb_true_iff in Hadm; destruct Hadm as [Hadm ?]).
    cbn [step]. destruct (delay now (lastScryfallCall p)) as [d|] eqn:Hd.
    + destruct Hp as [_ Hissued Hspaced].
      split; cbn [lastScryfallCall sleeping issued]; try assumption.
      right. exists (now + d). rewrite Hsl. split; [reflexivity|].
      rewrite (delay_Some _ _ Hd). lia.
    + apply delay_None in Hd.
      replace p with {| lastScryfallCall := lastScryfallCall p;
                        sleeping := [];
                        issued := issued p |}
        by (destruct p; cbn in *; congruence).
      apply paced_record; [|cbn [lastScryfallCall]].
      * destruct Hp as [Hs Hi Hsp]. split; cbn; auto.
      * match goal with H : (now <=? now') = true |- _ =>
          apply Z.leb_le in H end. lia.
  - cbn [step].
    destruct (nth_error (sleeping p) i) as [due|] eqn:Hnth; [|discriminate].
    repeat (apply andb_true_iff in Hadm; destruct Hadm as [Hadm ?]).
    destruct (Spec.paced_sleeping Hp) as [Hsl|(d & Hsl & Hdue)].
    + rewrite Hsl in Hnth. destruct i; discriminate.
    + rewrite Hsl in *. destruct i as [|i]; [|destruct i; discriminate].
      cbn in Hnth. injection Hnth as <-. cbn [remove_nth].
      apply paced_record; [exact Hp|].
      match goal with H : (d <=? now') = true |- _ =>
        apply Z.leb_le in H end. lia.
Qed.

Lemma paced_run (turns : list Turn) :
  forall clock p,
    Spec.paced p ->
    admissible clock p turns = true ->
    sequential p turns = true ->
    Spec.paced (run p turns).
Proof.
  induction turns as [|t turns IH]; intros clock p Hp Hadm Hseq;
    [exact Hp|].
  pose proof (@paced_step clock p t turns Hp Hadm Hseq) as Hstep.
  cbn [run fold_left]. cbn [admissible sequential] in Hadm, Hseq.
  apply andb_true_iff in Hseq. destruct Hseq as [_ Hseq].
  destruct t as [now now'|i now'].
  - repeat (apply andb_true_iff in Hadm; destruct Hadm as [Hadm ?]).
    eapply IH; eassumption.
  - destruct (nth_error (sleeping p) i); [|discriminate].
    repeat (apply andb_true_iff in Hadm; destruct Hadm as [Hadm ?]).
    eapply IH; eassumption.
Qed.

(** C1, as the code has it. From the start of the process, whenever the
    clock does not go back, no timer fires early and the calls of
    [lookupCard] do not overlap (each has passed its wait before the next
    one starts, as in runs of the handler made back to back), any two
    requests to the card database are issued at least 100 ms apart. *)
Theorem sequential_calls_are_spaced (clock : Z) (turns : list Turn) :
  admissible clock start turns = true ->
  sequential start turns = true ->
  spaced (issued (run start turns)) = true.
Proof.
  intros Hadm Hseq.
  apply (Spec.paced_spaced
           (@paced_run turns clock start paced_start Hadm Hseq)).
Qed.

(** Three runs back to back: requests at 1000, 1100 and 1201. *)
Lemma sequential_calls_are_spaced_witness :
  spaced (issued (run start Sample.back_to_back)) = true.
Proof.
  apply (sequential_calls_are_spaced 0 Sample.back_to_back);
    reflexivity.
Defined.

(** C1 as stated fails when calls overlap: two calls that are suspended
    at the same time are both due 100 ms after the same timestamp, wake in
    the same millisecond and issue their requests together. *)
Lemma overlapping_calls_wake_together :
  admissible 0 start Sample.overlapping = true
  /\ issued (run start Sample.overlapping) = [1100; 1100; 1000]
  /\ spaced (issued (run start Sample.overlapping)) = false.
Proof.
  repeat split.
Qed.

End Pacing.

(** ** More on the Name Normalizer *)

Module CleanNames.

Import Backend.

Lemma allowed_not_space (c : N) :
  Spec.allowed c -> c <> 32%N -> is_space c = false.
Proof.
  unfold Spec.allowed, is_space. intros H Hc.
  repeat match goal with
         | |- context [(?a <=? ?b)%N] =>
             destruct (N.leb_spec a b); try lia
         | |- context [(?a =? ?b)%N] =>
             destruct (N.eqb_spec a b); try lia
         end;
    reflexivity.
Qed.

Lemma allowed_kept (c : N) : Spec.allowed c -> Spec.kept c.
Proof.
  intros H. split.
  - destruct (N.eq_dec c 32) as [E|E]; [subst c; reflexivity|].
    unfold Spec.allowed in H.
    unfold in_name_class, is_lower, is_upper, is_digit, HYPHEN, APOSTROPHE.
    repeat rewrite orb_true_iff. repeat rewrite andb_true_iff.
    repeat rewrite N.leb_le. repeat rewrite N.eqb_eq.
    tauto.
  - intros Hsp. destruct (N.eq_dec c 32) as [E|E]; [exact E|].
    rewrite (allowed_not_space H E) in Hsp. discriminate.
Qed.

(** X2. A name that is already clean (allowed characters only, no white space
    at either end, no two spaces in a row, at most 50 code units) is
    returned as it is. *)
Theorem clean_name_is_unchanged (s : jsstring) :
  Forall Spec.allowed s ->
  Spec.normalized s = true ->
  List.length s <= 50 ->
  cleanCardName (JStr s) = Ok s.
Proof.
  intros Hallowed Hnorm Hlen.
  destruct s as [|c s]; [reflexivity|].
  cbn [cleanCardName truthy negb]. f_equal.
  assert (Hk : Forall Spec.kept (c :: s))
    by (eapply Forall_impl; [apply allowed_kept | exact Hallowed]).
  unfold Spec.normalized in Hnorm. apply andb_true_iff in Hnorm.
  destruct Hnorm as [Houter Hrun].
  rewrite (NameNormalizer.cleanCardName_string_on_kept Hk Hlen).
  rewrite (NameNormalizer.no_outer_ws_trim _ Houter).
  apply (NameNormalizer.no_ws_run_replace_ws_runs Hk Hrun).
Qed.

Lemma clean_name_is_unchanged_witness :
  cleanCardName (JStr (js "Lightning Bolt")) = Ok (js "Lightning Bolt").
Proof.
  apply (clean_name_is_unchanged (s := js "Lightning Bolt")).
  - let l := eval vm_compute in (js "Lightning Bolt") in
    change (js "Lightning Bolt") with l.
    repeat (apply Forall_cons; [unfold Spec.allowed; lia|]).
    apply Forall_nil.
  - reflexivity.
  - cbn. lia.
Defined.

(** X1. The Name Normalizer settles at its second application: applied to
    its own output it gives a string with no white space at either end and
    no two white space code units in a row, and a third application changes
    nothing. *)
Theorem normalizer_settles_at_second_application (s : jsstring) :
  cleanCardName_string (cleanCardName_string (cleanCardName_string s))
  = cleanCardName_string (cleanCardName_string s)
  /\ Spec.normalized (cleanCardName_string (cleanCardName_string s)) = true.
Proof.
  pose proof (NameNormalizer.cleanCardName_string_settles s) as H.
  cbv zeta in H. exact H.
Qed.

End CleanNames.

(** ** The image on its way from the canvas to the validator *)

Module Transport.

Import Backend.

Lemma strip_prefix_app (p rest : jsstring) :
  strip_prefix p (p ++ rest) = Some rest.
Proof.
  induction p as [|c p IH]; cbn; [reflexivity|].
  rewrite N.eqb_refl. exact IH.
Qed.

Lemma strip_prefix_Some (p s rest : jsstring) :
  strip_prefix p s = Some rest -> s = p ++ rest.
Proof.
  revert s. induction p as [|c p IH]; intros s H; cbn in H.
  - injection H as ->. reflexivity.
  - destruct s as [|d s]; [discriminate|].
    destruct (N.eqb_spec c d) as [->|]; [|discriminate].
    cbn. f_equal. apply IH, H.
Qed.

Lemma takeWhile_app_stop (p : N -> bool) (a : jsstring) (c : N)
      (rest : jsstring) :
  forallb p a = true -> p c = false ->
  takeWhile p (a ++ c :: rest) = a
  /\ dropWhile p (a ++ c :: rest) = c :: rest.
Proof.
  intros Ha Hc. induction a as [|d a IH]; cbn [app takeWhile dropWhile].
  - rewrite Hc. auto.
  - cbn in Ha. apply andb_true_iff in Ha. destruct Ha as [Hd Ha].
    rewrite Hd. destruct (IH Ha) as [-> ->]. auto.
Qed.

Lemma takeWhile_all (p : N -> bool) (a : jsstring) :
  forallb p a = true -> takeWhile p a = a.
Proof.
  induction a as [|d a IH]; cbn; [reflexivity|].
  intros H. apply andb_true_iff in H. destruct H as [-> H].
  rewrite (IH H). reflexivity.
Qed.

(** X3. The handler's [replace] removes the head of a data URL, whatever the
    image subtype (not empty, word characters), and leaves the payload. *)
Theorem strip_data_url_payload (subtype payload : jsstring) :
  subtype <> [] ->
  forallb is_word subtype = true ->
  strip_data_url (Spec.data_url subtype payload) = payload.
Proof.
  intros Hne Hword. unfold strip_data_url, Spec.data_url.
  rewrite strip_prefix_app.
  change (js ";base64," ++ payload) with (59%N :: js "base64," ++ payload).
  destruct (takeWhile_app_stop is_word subtype 59
              (js "base64," ++ payload) Hword eq_refl) as [-> ->].
  destruct subtype as [|c subtype]; [congruence|].
  change (59%N :: js "base64," ++ payload) with (js ";base64," ++ payload).
  rewrite strip_prefix_app. reflexivity.
Qed.

Lemma strip_data_url_payload_witness :
  strip_data_url (Spec.data_url (js "png") (js "iVBORw0KGgo="))
  = js "iVBORw0KGgo=".
Proof.
  apply (strip_data_url_payload (subtype := js "png")).
  - discriminate.
  - reflexivity.
Defined.

Lemma base64_not_comma (payload : jsstring) :
  forallb Spec.is_base64_char payload = true ->
  forallb Background.not_comma payload = true.
Proof.
  induction payload as [|c payload IH]; cbn; [reflexivity|].
  intros H. apply andb_true_iff in H. destruct H as [Hc H].
  rewrite (IH H), andb_true_r.
  unfold Background.not_comma, Background.COMMA.
  destruct (N.eqb_spec c 44) as [->|]; [discriminate | reflexivity].
Qed.

Lemma word_not_comma (subtype : jsstring) :
  forallb is_word subtype = true ->
  forallb Background.not_comma subtype = true.
Proof.
  induction subtype as [|c subtype IH]; cbn; [reflexivity|].
  intros H. apply andb_true_iff in H. destruct H as [Hc H].
  rewrite (IH H), andb_true_r.
  unfold Background.not_comma, Background.COMMA.
  destruct (N.eqb_spec c 44) as [->|]; [discriminate | reflexivity].
Qed.

Lemma base64_is_no_data_url (payload : jsstring) :
  forallb Spec.is_base64_char payload = true ->
  strip_data_url payload = payload.
Proof.
  intros H. unfold strip_data_url.
  destruct (strip_prefix (js "data:image/") payload) as [rest|] eqn:E;
    [|reflexivity].
  apply strip_prefix_Some in E. subst payload.
  cbn in H. discriminate.
Qed.

(** X4. The service worker cuts a canvas's data URL at the comma and the
    handler's [replace] then finds nothing to remove: the validator and the
    OCR service are given exactly the base64 payload of the data URL. *)
Theorem data_url_reaches_handler_as_payload (subtype payload : jsstring) :
  forallb is_word subtype = true ->
  forallb Spec.is_base64_char payload = true ->
  Background.dataUrlToBase64 (Spec.data_url subtype payload) = payload
  /\ strip_data_url
       (Background.dataUrlToBase64 (Spec.data_url subtype payload))
     = payload.
Proof.
  intros Hword Hb64.
  assert (E : Background.dataUrlToBase64 (Spec.data_url subtype payload)
              = payload).
  { unfold Background.dataUrlToBase64, Spec.data_url.
    change (js ";base64," ++ payload)
      with (js ";base64" ++ 44%N :: payload).
    rewrite 2 app_assoc.
    destruct (takeWhile_app_stop Background.not_comma
                ((js "data:image/" ++ subtype) ++ js ";base64") 44 payload)
      as [_ ->].
    - rewrite 2 forallb_app, (word_not_comma _ Hword). reflexivity.
    - reflexivity.
    - apply takeWhile_all, base64_not_comma, Hb64. }
  split; [exact E|].
  rewrite E. apply base64_is_no_data_url, Hb64.
Qed.

Lemma data_url_reaches_handler_as_payload_witness :
  Background.dataUrlToBase64 (Spec.data_url (js "png") (js "iVBORw0KGgo="))
  = js "iVBORw0KGgo="
  /\ strip_data_url
       (Background.dataUrlToBase64
          (Spec.data_url (js "png") (js "iVBORw0KGgo=")))
     = js "iVBORw0KGgo=".
Proof.
  apply (@data_url_reaches_handler_as_payload
           (js "png") (js "iVBORw0KGgo="));
    reflexivity.
Defined.

End Transport.

(** ** The OCR Resolver *)

Module OCR.

Import Backend.

Lemma jsstring_eqb_eq (a b : jsstring) : jsstring_eqb a b = true -> a = b.
Proof.
  revert b. induction a as [|x a IH]; intros [|y b] H; cbn in H;
    try discriminate; [reflexivity|].
  apply andb_true_iff in H. destruct H as [Hx H].
  apply N.eqb_eq in Hx. subst y. f_equal. apply IH, H.
Qed.

Lemma jsstring_eqb_refl (a : jsstring) : jsstring_eqb a a = true.
Proof.
  induction a as [|x a IH]; cbn; [reflexivity|].
  rewrite N.eqb_refl. exact IH.
Qed.

(** The outcomes of [performOCR], with the one call it makes. *)
Lemma performOCR_cases (env : Env) (base64Image apiKey : jsstring) :
  exists r,
    performOCR env base64Image apiKey
    = ([CallGemini base64Image apiKey], r)
    /\ match r with
       | Throw _ => True
       | Ok found =>
           (exists resp,
               gemini env base64Image apiKey = Responded resp
               /\ ok resp = true
               /\ exists data, json resp = Ok data)
           /\ match found with
              | None => True
              | Some t =>
                  t <> [] /\ t <> js "NONE"
                  /\ Spec.no_outer_ws t = true
              end
       end.
Proof.
  unfold performOCR, fetch.
  destruct (gemini env base64Image apiKey) as [m|resp] eqn:Hresp;
    cbn [bind]; [eexists; split; [reflexivity | exact I]|].
  destruct (ok resp) eqn:Hok; cbn [negb].
  - destruct (json resp) as [data|m] eqn:Hjson; cbn [lift bind];
      [|eexists; split; [reflexivity | exact I]].
    assert (Hsrc : exists resp0,
               Responded resp = Responded resp0
               /\ ok resp0 = true /\ exists data0, json resp0 = Ok data0)
      by (exists resp; eauto).
    destruct data as [parts|]; cbn [option_map];
      [|eexists; split; [reflexivity | split; [exact Hsrc | exact I]]].
    pose proof (NameNormalizer.trim_no_outer_ws
                  (join_space (truthy_texts parts))) as Htrim.
    destruct (trim (join_space (truthy_texts parts))) as [|c t] eqn:Et;
      [eexists; split; [reflexivity | split; [exact Hsrc | exact I]]|].
    destruct (jsstring_eqb (c :: t) NONE) eqn:Enone;
      eexists; (split; [reflexivity | split; [exact Hsrc|]]);
      [exact I|].
    repeat split; [discriminate | | exact Htrim].
    intros E. unfold NONE in Enone. rewrite E, jsstring_eqb_refl in Enone.
    discriminate.
  - destruct ((status resp =? 401)%N || (status resp =? 403)%N);
      [eexists; split; [reflexivity | exact I]|].
    destruct (status resp =? 429)%N;
      eexists; (split; [reflexivity | exact I]).
Qed.

(** X5. [performOCR] sends exactly one request. It throws on a rejected
    request, on every status outside 200 to 299 and on a body that does not
    parse; when it returns, the response was a 2xx whose body parsed, and
    what it returns is no name, or a name that is not empty, is not the
    NONE token and has no white space at either end. *)
Theorem performOCR_outcome (env : Env) (base64Image apiKey : jsstring) :
  fst (performOCR env base64Image apiKey)
  = [CallGemini base64Image apiKey]
  /\ forall found,
      snd (performOCR env base64Image apiKey) = Ok found ->
      (exists resp data,
          gemini env base64Image apiKey = Responded resp
          /\ ok resp = true /\ json resp = Ok data)
      /\ forall t,
          found = Some t ->
          t <> [] /\ t <> js "NONE" /\ Spec.no_outer_ws t = true.
Proof.
  destruct (performOCR_cases env base64Image apiKey) as (r & -> & Hr).
  split; [reflexivity|].
  cbn [snd]. intros found E. subst r.
  destruct Hr as [(resp & Hresp & Hok & data & Hdata) Hfound].
  split; [exists resp, data; auto|].
  intros t ->. exact Hfound.
Qed.

End OCR.

(** ** The handler as a whole *)

Module HandlerFacts.

Import Backend.

(** [lookupCard] sends one request; what it returns is the record built
    from the parsed body of a 2xx response. *)
Lemma lookupCard_outcome (env : Env) (cardName : jsstring) :
  exists r,
    lookupCard env cardName = ([CallScryfall cardName], r)
    /\ forall card,
        r = Ok card ->
        exists resp c,
          scryfall env cardName = Responded resp
          /\ ok resp = true /\ json resp = Ok c /\ card = cardRecord c.
Proof.
  unfold lookupCard, fetch.
  destruct (scryfall env cardName) as [m|resp]; cbn [bind];
    [eexists; split; [reflexivity | discriminate]|].
  destruct (ok resp) eqn:Hok; cbn [negb].
  - destruct (json resp) as [c|m] eqn:Hjson; cbn [lift bind ret app];
      eexists; (split; [reflexivity|]); [|discriminate].
    intros card E. injection E as <-. exists resp, c. auto.
  - destruct (status resp =? 404)%N;
      eexists; (split; [reflexivity | discriminate]).
Qed.

Lemma sanitized_clean (s : jsstring) :
  cleanCardName_string s <> [] -> Spec.sanitized (cleanCardName_string s).
Proof.
  intros H. split; [exact H|]. split.
  - apply NameNormalizer.cleanCardName_string_length.
  - apply NameNormalizer.cleanCardName_string_allowed.
Qed.

Lemma nothing_tried (env : Env) (by_name : bool) (r : result HttpResponse) :
  (forall response,
      r = Ok response ->
      body response = NotFoundBody /\ statusCode response = 200%N
      \/ Spec.is_error_body (body response) = true
         /\ (statusCode response = 400%N \/ statusCode response = 500%N)) ->
  Spec.tried env by_name [] r.
Proof. apply Spec.tried_nothing. Qed.

Ltac settle_nothing :=
  apply nothing_tried; intros response E;
  first [ discriminate
        | injection E as <-; cbn; auto ].

(** Every run of the [try] block is one of the four cases. *)
Lemma handler_try_tried (env : Env) (event : Request.Event) :
  Spec.tried env
    (endsWith (js "/lookup-by-name") (Request.path event))
    (fst (handler_try env event)) (snd (handler_try env event)).
Proof.
  unfold handler_try.
  destruct (Request.body event) as [b|m]; [|cbn; settle_nothing].
  rewrite Pipeline.bind_lift_Ok.
  destruct (endsWith (js "/lookup-by-name") (Request.path event)) eqn:Hpath.
  - (* the name endpoint *)
    destruct (Request.name b) as [|s|] eqn:Hname;
      [cbn; settle_nothing | | cbn; settle_nothing].
    destruct s as [|c s]; [cbn; settle_nothing|].
    cbn [truthy negb cleanCardName].
    rewrite Pipeline.bind_lift_Ok.
    destruct (cleanCardName_string (c :: s)) as [|n ame] eqn:Hclean;
      [cbn; settle_nothing|].
    destruct (lookupCard_outcome env (n :: ame)) as (r & -> & Hr).
    assert (Hs : Spec.sanitized (n :: ame))
      by (rewrite <- Hclean; apply sanitized_clean; congruence).
    destruct r as [card|m]; cbn [bind ret app fst snd].
    + apply Spec.tried_card_only; [reflexivity | exact Hs|].
      intros response E. injection E as <-.
      destruct (Hr card eq_refl) as (resp & c0 & H1 & H2 & H3 & ->).
      exists resp, c0. auto.
    + apply Spec.tried_card_only; [reflexivity | exact Hs | discriminate].
  - (* the image endpoint *)
    destruct (Request.image b) as [|image|] eqn:Himage;
      [cbn; settle_nothing | | cbn; settle_nothing].
    destruct image as [|i mage]; [cbn; settle_nothing|].
    cbn [truthy negb image_replace].
    rewrite Pipeline.bind_lift_Ok.
    set (base64 := strip_data_url (i :: mage)).
    destruct (ImageValidator.validateImage_total env (JStr base64))
      as [valid Hvalid].
    rewrite Hvalid, Pipeline.bind_lift_Ok.
    destruct valid; cbn [negb]; [|cbn; settle_nothing].
    destruct (GEMINI_API_KEY env) as [[|k ey]|] eqn:Hkey;
      try (cbn; settle_nothing).
    assert (Hocr : Spec.ocr_call_allowed env (CallGemini base64 (k :: ey)))
      by (cbn; repeat split; [assumption | assumption | discriminate]).
    destruct (OCR.performOCR_cases env base64 (k :: ey))
      as (r & -> & Hr).
    destruct r as [[[|c t]|]|m]; cbn [bind ret app fst snd];
      try (apply Spec.tried_ocr_only;
           [reflexivity | exact Hocr
            | intros response E;
              first [discriminate | injection E as <-; reflexivity]]).
    cbn [cleanCardName truthy negb lift].
    destruct (cleanCardName_string (c :: t)) as [|n ame] eqn:Hclean.
    + cbn. apply Spec.tried_ocr_only; [reflexivity | exact Hocr|].
      intros response E. injection E as <-. reflexivity.
    + destruct (lookupCard_outcome env (n :: ame)) as (r & Hlook & Hcard).
      assert (Hs : Spec.sanitized (n :: ame))
        by (rewrite <- Hclean; apply sanitized_clean; congruence).
      rewrite Pipeline.bind_lift_Ok, Hlook.
      destruct r as [card|m]; cbn [bind ret app fst snd].
      * apply Spec.tried_ocr_and_card;
          [reflexivity | exact Hocr | exact Hs|].
        intros response E. injection E as <-.
        destruct (Hcard card eq_refl) as (resp & c0 & H1 & H2 & H3 & ->).
        exists resp, c0. auto.
      * apply Spec.tried_ocr_and_card;
          [reflexivity | exact Hocr | exact Hs | discriminate].
Qed.

Lemma handler_calls (env : Env) (event : Request.Event) :
  fst (handler env event) = fst (handler_try env event).
Proof.
  unfold handler. destruct (handler_try env event) as [calls [r|m]];
    reflexivity.
Qed.

Lemma handler_response (env : Env) (event : Request.Event) :
  snd (handler env event)
  = match snd (handler_try env event) with
    | Ok response => response
    | Throw m => handler_catch m
    end.
Proof.
  unfold handler. destruct (handler_try env event) as [calls [r|m]];
    reflexivity.
Qed.

(** X6. In one run the handler calls the OCR service at most once and the card
    database at most once, in that order. It calls the OCR service only
    with an image that passed validation and with the configured, non-empty
    key; it asks the card database only for a sanitized name (not empty, at
    most 50 code units, allowed characters only); and on the name endpoint
    it never calls the OCR service. *)
Theorem handler_calls_disciplined (env : Env) (event : Request.Event) :
  Spec.disciplined env (fst (handler env event))
  /\ (endsWith (js "/lookup-by-name") (Request.path event) = true ->
      forall base64Image apiKey,
        ~ In (CallGemini base64Image apiKey) (fst (handler env event))).
Proof.
  rewrite handler_calls.
  destruct (handler_try_tried env event)
    as [r _|b k r Hpath Hocr _|b k n r Hpath Hocr Hs _|n r Hpath Hs _].
  - split; [exact I|]. intros _ b k [].
  - split; [left; exact Hocr|]. rewrite Hpath. discriminate.
  - split; [split; assumption|]. rewrite Hpath. discriminate.
  - split; [right; exact Hs|].
    intros _ b k [E|[]]. discriminate.
Qed.

(** The status and the kind of body go together. *)
Lemma handler_shape_cases (env : Env) (event : Request.Event) :
  (statusCode (snd (handler env event)) = 200%N
   \/ statusCode (snd (handler env event)) = 400%N
   \/ statusCode (snd (handler env event)) = 500%N)
  /\ Spec.is_error_body (body (snd (handler env event)))
     = negb (statusCode (snd (handler env event)) =? 200)%N.
Proof.
  rewrite handler_response.
  destruct (handler_try_tried env event)
    as [r Hr|b k r _ _ Hr|b k n r _ _ _ Hr|n r _ _ Hr];
    (destruct r as [response|m];
     [|unfold handler_catch;
       destruct (includes (js "not found") m); cbn; auto]).
  - destruct (Hr response eq_refl) as [[-> ->]|[-> [->| ->]]]; cbn; auto.
  - rewrite (Hr response eq_refl). cbn. auto.
  - destruct (Hr response eq_refl) as (resp & c & _ & _ & _ & ->).
    cbn. auto.
  - destruct (Hr response eq_refl) as (resp & c & _ & _ & _ & ->).
    cbn. auto.
Qed.

(** X7. The handler answers 200, 400 or 500 and nothing else; a 200 never
    carries an error object, and a 400 or a 500 always does. *)
Theorem handler_response_shape (env : Env) (event : Request.Event) :
  (statusCode (snd (handler env event)) = 200%N
   /\ Spec.is_error_body (body (snd (handler env event))) = false)
  \/ ((statusCode (snd (handler env event)) = 400%N
       \/ statusCode (snd (handler env event)) = 500%N)
      /\ exists error, body (snd (handler env event)) = ErrorBody error).
Proof.
  destruct (handler_shape_cases env event) as [[E|[E|E]] Herr];
    rewrite E in Herr; cbn in Herr.
  - left. auto.
  - right. split; [auto|].
    destruct (body (snd (handler env event))); try discriminate. eauto.
  - right. split; [auto|].
    destruct (body (snd (handler env event))); try discriminate. eauto.
Qed.

(** X8. When the handler answers that a card was found, the status is 200, the
    card database was asked for a sanitized name and answered 2xx with a
    body that parsed, and the card in the response is the record built
    from that body; [detectedName] is that name on the image endpoint and
    is missing on the name endpoint. *)
Theorem found_card_is_scryfalls (env : Env) (event : Request.Event)
        (card : CardRecord) (detectedName : option jsstring) :
  body (snd (handler env event)) = FoundBody card detectedName ->
  exists cardName resp c,
    In (CallScryfall cardName) (fst (handler env event))
    /\ Spec.sanitized cardName
    /\ scryfall env cardName = Responded resp
    /\ ok resp = true
    /\ json resp = Ok c
    /\ card = cardRecord c
    /\ statusCode (snd (handler env event)) = 200%N
    /\ detectedName
       = if endsWith (js "/lookup-by-name") (Request.path event)
         then None else Some cardName.
Proof.
  rewrite handler_response, handler_calls.
  destruct (handler_try_tried env event)
    as [r Hr|b k r _ _ Hr|b k n r Hpath _ Hs Hr|n r Hpath Hs Hr];
    (destruct r as [response|m];
     [|unfold handler_catch;
       destruct (includes (js "not found") m); discriminate]).
  - destruct (Hr response eq_refl) as [[-> _]|[E _]]; [discriminate|].
    intros H. rewrite H in E. discriminate.
  - rewrite (Hr response eq_refl). discriminate.
  - destruct (Hr response eq_refl) as (resp & c & H1 & H2 & H3 & ->).
    cbn [body statusCode]. intros E. injection E as <- <-.
    exists n, resp, c. rewrite Hpath. cbn [In]. auto 10.
  - destruct (Hr response eq_refl) as (resp & c & H1 & H2 & H3 & ->).
    cbn [body statusCode]. intros E. injection E as <- <-.
    exists n, resp, c. rewrite Hpath. cbn [In]. auto 10.
Qed.

Lemma found_card_is_scryfalls_witness :
  exists cardName resp c,
    In (CallScryfall cardName)
       (fst (handler Sample.all_fine
               (Background.lookup_event (js "iVBORw0KGgo="))))
    /\ Spec.sanitized cardName
    /\ scryfall Sample.all_fine cardName = Responded resp
    /\ ok resp = true
    /\ json resp = Ok c
    /\ cardRecord Sample.lightning_bolt = cardRecord c
    /\ statusCode
         (snd (handler Sample.all_fine
                 (Background.lookup_event (js "iVBORw0KGgo="))))
       = 200%N
    /\ Some (js "Lightning Bolt")
       = if endsWith (js "/lookup-by-name")
                     (Request.path
                        (Background.lookup_event (js "iVBORw0KGgo=")))
         then None else Some cardName.
Proof.
  apply (@found_card_is_scryfalls Sample.all_fine
           (Background.lookup_event (js "iVBORw0KGgo="))
           (cardRecord Sample.lightning_bolt)
           (Some (js "Lightning Bolt"))).
  vm_compute. reflexivity.
Defined.

(** *** Failures that are not a missing card *)

Lemma includes_needs_first (n : N) (eedle s : jsstring) :
  forallb (fun c => negb (n =? c)%N) s = true ->
  includes (n :: eedle) s = false.
Proof.
  induction s as [|c s IH]; intros H; [reflexivity|].
  cbn in H. apply andb_true_iff in H. destruct H as [Hc H].
  cbn [includes]. rewrite (IH H), orb_false_r.
  unfold startsWith. cbn [strip_prefix].
  apply negb_true_iff in Hc. rewrite Hc. reflexivity.
Qed.

Lemma decimal_digits (d : Decimal.uint) :
  forallb is_digit (js (NilEmpty.string_of_uint d)) = true.
Proof. induction d; cbn; auto. Qed.

Lemma N_to_jsstring_digits (n : N) :
  forallb is_digit (N_to_jsstring n) = true.
Proof.
  unfold N_to_jsstring, NilZero.string_of_uint.
  destruct (N.to_uint n); try apply (decimal_digits (_ _)). reflexivity.
Qed.

Lemma digit_is_not_n (s : jsstring) :
  forallb is_digit s = true ->
  forallb (fun c => negb (110 =? c)%N) s = true.
Proof.
  induction s as [|c s IH]; cbn [forallb]; [reflexivity|].
  intros H. apply andb_true_iff in H. destruct H as [Hc H].
  rewrite (IH H), andb_true_r.
  unfold is_digit in Hc. apply andb_true_iff in Hc.
  destruct Hc as [_ Hc]. apply N.leb_le in Hc.
  apply negb_true_iff, N.eqb_neq. lia.
Qed.

Lemma scryfall_error_is_not_not_found (status : N) :
  handler_catch (js "Scryfall API error: " ++ N_to_jsstring status)
  = {| statusCode := 500;
       body := ErrorBody
                 (js "Scryfall API error: " ++ N_to_jsstring status) |}.
Proof.
  unfold handler_catch.
  change (js "not found") with (110%N :: js "ot found").
  rewrite includes_needs_first; [reflexivity|].
  rewrite forallb_app, (digit_is_not_n _ (N_to_jsstring_digits status)).
  reflexivity.
Qed.

(** X9. A request for a name that the card database answers with an error
    status other than 404 gets a 500 with the status in its message; it is
    never answered as a card that was not found. *)
Theorem card_database_failure_is_500
        (env : Env) (name : jsstring) (resp : Response Scryfall.Card) :
  name <> [] ->
  cleanCardName_string name <> [] ->
  scryfall env (cleanCardName_string name) = Responded resp ->
  ok resp = false ->
  status resp <> 404%N ->
  handler env (Background.by_name_event name)
  = ([CallScryfall (cleanCardName_string name)],
     {| statusCode := 500;
        body := ErrorBody (js "Scryfall API error: "
                           ++ N_to_jsstring (status resp)) |}).
Proof.
  intros Hname Hclean Hresp Hok H404.
  unfold handler, handler_try, Background.by_name_event.
  cbn [Request.body]. rewrite Pipeline.bind_lift_Ok.
  cbn [Request.path Request.name].
  change (endsWith (js "/lookup-by-name") (js "/lookup-by-name")) with true.
  destruct name as [|c name]; [congruence|].
  cbn [truthy negb cleanCardName]. rewrite Pipeline.bind_lift_Ok.
  destruct (cleanCardName_string (c :: name)) as [|n ame] eqn:E;
    [congruence|].
  unfold lookupCard, fetch. rewrite Hresp. cbn [bind].
  rewrite Hok. cbn [negb].
  apply N.eqb_neq in H404. rewrite H404.
  cbn [throw bind app]. rewrite scryfall_error_is_not_not_found.
  reflexivity.
Qed.

Lemma card_database_failure_is_500_witness :
  handler Sample.cards_down (Background.by_name_event (js "Lightning Bolt"))
  = ([CallScryfall (js "Lightning Bolt")],
     {| statusCode := 500;
        body := ErrorBody (js "Scryfall API error: 503") |}).
Proof.
  apply (@card_database_failure_is_500 Sample.cards_down
           (js "Lightning Bolt")
           {| status := 503; text := []; json := Sample.no_json |});
    try reflexivity; discriminate.
Defined.

(** X10. When the OCR service refuses the key (401, 403) or the rate (429), the
    handler answers 500 with a fixed message, whatever the body of the
    refusal says, and does not go on to the card database. *)
Theorem ocr_refusal_is_500
        (env : Env) (image key : jsstring) (resp : Response GeminiData) :
  image <> [] ->
  validateImage env (JStr (strip_data_url image)) = Ok true ->
  GEMINI_API_KEY env = Some key -> key <> [] ->
  gemini env (strip_data_url image) key = Responded resp ->
  status resp = 401%N \/ status resp = 403%N \/ status resp = 429%N ->
  handler env (Background.lookup_event image)
  = ([CallGemini (strip_data_url image) key],
     {| statusCode := 500;
        body := ErrorBody (if (status resp =? 429)%N
                           then js "Rate limit exceeded"
                           else js "Invalid Gemini API key") |}).
Proof.
  intros Himage Hvalid Hkey Hk Hresp Hstatus.
  destruct key as [|k ey]; [congruence|].
  unfold handler.
  rewrite (Pipeline.handler_lookup_OCR env (k := k :: ey)
             Himage Hvalid Hkey eq_refl).
  unfold performOCR, fetch. rewrite Hresp. cbn [bind]. unfold ok.
  destruct Hstatus as [E|[E|E]]; rewrite E; reflexivity.
Qed.

Lemma ocr_refusal_is_500_witness :
  handler Sample.key_refused (Background.lookup_event (js "iVBORw0KGgo="))
  = ([CallGemini (js "iVBORw0KGgo=") (js "key")],
     {| statusCode := 500;
        body := ErrorBody (js "Invalid Gemini API key") |}).
Proof.
  apply (@ocr_refusal_is_500 Sample.key_refused (js "iVBORw0KGgo=")
           (js "key")
           {| status := 403; text := js "API key not valid";
              json := Sample.no_json |});
    try reflexivity; try discriminate.
  right. left. reflexivity.
Defined.

(** *** Requests that are turned down before any call *)

(** X11. On the name endpoint a missing or empty name is answered 400, a name
    that is not a string 500, and a name with nothing left after cleaning
    200 with [{ found: false }]; on the image endpoint a missing or empty
    image is answered 400, an image that is not a string 500, and a valid
    image without a configured key 500. None of them is followed by a call
    to a service. *)
Theorem turned_down_without_calls
        (env : Env) (event : Request.Event) (b : Request.Body) :
  Request.body event = Ok b ->
  (endsWith (js "/lookup-by-name") (Request.path event) = true ->
   (truthy (Request.name b) = false ->
    handler env event = ([], badRequest))
   /\ (Request.name b = JOther ->
       handler env event
       = ([], {| statusCode := 500;
                 body := ErrorBody (js "text.trim is not a function") |}))
   /\ (forall s,
          Request.name b = JStr s -> s <> [] ->
          cleanCardName_string s = [] ->
          handler env event = ([], notFound)))
  /\ (endsWith (js "/lookup-by-name") (Request.path event) = false ->
      (truthy (Request.image b) = false ->
       handler env event
       = ([], {| statusCode := 400;
                 body := ErrorBody (js "Missing image") |}))
      /\ (Request.image b = JOther ->
          handler env event
          = ([], {| statusCode := 500;
                    body := ErrorBody
                              (js "body.image.replace is not a function") |}))
      /\ (forall image,
             Request.image b = JStr image -> image <> [] ->
             validateImage env (JStr (strip_data_url image)) = Ok true ->
             truthy_str (GEMINI_API_KEY env) = false ->
             handler env event
             = ([], {| statusCode := 500;
                       body := ErrorBody (js "Server config error") |}))).
Proof.
  intros Hbody. unfold handler, handler_try. rewrite Hbody.
  rewrite Pipeline.bind_lift_Ok.
  split; intros Hpath; rewrite Hpath.
  - split; [|split].
    + intros H. rewrite H. reflexivity.
    + intros H. rewrite H. reflexivity.
    + intros s H Hs Hclean. rewrite H.
      destruct s as [|c s]; [congruence|].
      cbn [truthy negb cleanCardName]. rewrite Pipeline.bind_lift_Ok, Hclean.
      reflexivity.
  - split; [|split].
    + intros H. rewrite H. reflexivity.
    + intros H. rewrite H. reflexivity.
    + intros image H Himage Hvalid Hkey. rewrite H.
      destruct image as [|c image]; [congruence|].
      cbn [truthy negb image_replace].
      rewrite Pipeline.bind_lift_Ok, Hvalid, Pipeline.bind_lift_Ok.
      cbn [negb].
      destruct (GEMINI_API_KEY env) as [[|k ey]|]; try discriminate;
        reflexivity.
Qed.

(** A name made of characters that are all stripped. *)
Lemma turned_down_without_calls_witness :
  handler Sample.all_fine (Background.by_name_event (js "@@@"))
  = ([], notFound).
Proof.
  apply (proj2 (proj2 (proj1 (@turned_down_without_calls Sample.all_fine
                                (Background.by_name_event (js "@@@"))
                                {| Request.name := JStr (js "@@@");
                                   Request.image := JUndefined |}
                                eq_refl) eq_refl)) (js "@@@"));
    try reflexivity.
  discriminate.
Defined.

End HandlerFacts.

(** ** From the handler's response to the overlay *)

Module EndToEnd.

Import Backend.

(** X12. What the overlay shows after a lookup by image depends on the
    handler's response alone: every status other than 200 ends in
    ErrorFallback, whatever the reason in the body, which never reaches the
    page; [{ found: false }] ends in NoMatch with an empty prompt; a found
    card is shown if it has an image URL, and otherwise the prompt comes up
    with the detected name. The calls made are the handler's. *)
Theorem lookup_overlay (env : Env) (imageDataUrl : jsstring) :
  fst (Content.lookup env imageDataUrl)
  = fst (handler env (Background.lookup_event
                        (Background.dataUrlToBase64 imageDataUrl)))
  /\ snd (Content.lookup env imageDataUrl)
     = match snd (handler env (Background.lookup_event
                                 (Background.dataUrlToBase64 imageDataUrl)))
       with
       | {| statusCode := 200%N; body := NotFoundBody |} =>
           Content.NoMatch []
       | {| statusCode := 200%N; body := FoundBody c d |} =>
           if truthy_str (imageUrl c) then Content.Resolved c
           else Content.NoMatch (match d with Some n => n | None => [] end)
       | _ => Content.ErrorFallback
       end.
Proof.
  pose proof (HandlerFacts.handler_shape_cases env
                (Background.lookup_event
                   (Background.dataUrlToBase64 imageDataUrl))) as Hshape.
  unfold Content.lookup, Background.lookupCardFromImage,
    Background.post_lookup.
  destruct (handler env
              (Background.lookup_event
                 (Background.dataUrlToBase64 imageDataUrl)))
    as [calls [st b]].
  cbn [fst snd statusCode body] in *.
  split; [reflexivity|].
  unfold Background.lookup_settled, ok.
  cbn [status statusCode body json].
  destruct Hshape as [[-> | [-> | ->]] Herr]; cbn in Herr.
  - destruct b as [e|  |c d]; [discriminate| |].
    + reflexivity.
    + cbn [andb negb N.leb Background.reply Content.performCardLookup_settled
             Content.handleCardLookup_settled Content.found Content.card
             Content.detectedName].
      change ((200 <=? 200)%N && (200 <=? 299)%N) with true.
      cbn [negb Background.reply Content.performCardLookup_settled
             Content.handleCardLookup_settled Content.found Content.card
             Content.detectedName].
      destruct (truthy_str (imageUrl c)); reflexivity.
  - change ((200 <=? 400)%N && (400 <=? 299)%N) with false.
    cbn [negb Background.reply]. rewrite Pipeline.failure_is_ErrorFallback.
    destruct b; reflexivity.
  - change ((200 <=? 500)%N && (500 <=? 299)%N) with false.
    cbn [negb Background.reply]. rewrite Pipeline.failure_is_ErrorFallback.
    destruct b; reflexivity.
Qed.

(** X13. After a lookup by name the overlay shows the card when the handler
    found one (with or without an image URL); in every other case, a
    failure of a service included, it shows the prompt with the name that
    was searched and the message that the card was not found. *)
Theorem lookup_by_name_overlay (env : Env) (cardName : jsstring) :
  fst (Content.lookupByName env cardName)
  = fst (handler env (Background.by_name_event cardName))
  /\ snd (Content.lookupByName env cardName)
     = match body (snd (handler env (Background.by_name_event cardName)))
       with
       | FoundBody c _ => [Content.Backdrop; Content.CardOverlay c]
       | _ =>
           [Content.Backdrop;
            Content.TextInputModal cardName
              (js "Card not found: " ++ [34%N] ++ cardName ++ [34%N])]
       end.
Proof.
  pose proof (HandlerFacts.handler_shape_cases env
                (Background.by_name_event cardName)) as Hshape.
  unfold Content.lookupByName, Background.lookupCardByName,
    Background.post_lookup_by_name.
  destruct (handler env (Background.by_name_event cardName))
    as [calls [st b]].
  cbn [fst snd statusCode body] in *.
  split; [reflexivity|].
  unfold Background.lookup_settled, ok.
  cbn [status statusCode body json].
  destruct Hshape as [[-> | [-> | ->]] Herr]; cbn in Herr.
  - change ((200 <=? 200)%N && (200 <=? 299)%N) with true.
    destruct b as [e|  |c d]; [discriminate| |]; reflexivity.
  - change ((200 <=? 400)%N && (400 <=? 299)%N) with false.
    destruct b as [e|  |c d]; try discriminate. reflexivity.
  - change ((200 <=? 500)%N && (500 <=? 299)%N) with false.
    destruct b as [e|  |c d]; try discriminate. reflexivity.
Qed.

End EndToEnd.

(** ** The page over a whole session *)

Module SessionFacts.

Import Content Session.

Lemma settled_on_shown (r : result LookupResult) (d : DOM) :
  Spec.shown d -> handleCardLookup_settled r d = Spec.rendered r.
Proof.
  intros H. rewrite <- Orchestrator.settled_on_empty_page.
  pose proof (Orchestrator.dismissOverlay_shown H) as Hd.
  unfold handleCardLookup_settled. rewrite Hd. reflexivity.
Qed.

Lemma rendered_shown (r : result LookupResult) : Spec.shown (Spec.rendered r).
Proof.
  destruct r as [result|e]; [|constructor; discriminate].
  unfold Spec.rendered.
  destruct (found result), (card result) as [c|];
    try (constructor; discriminate).
  destruct (Backend.imageUrl c) as [[|u rl]|]; constructor; discriminate.
Qed.

(** What the callback of a lookup by name leaves on the page. *)
Lemma by_name_settled_on_shown (cardName : jsstring) (r : Reply) (d : DOM) :
  Spec.shown d ->
  handleCardLookupWithName_settled cardName r d
  = match r with
    | Response (Background.Success (Backend.FoundBody c _)) =>
        [Backdrop; CardOverlay c]
    | LastError m => [Backdrop; TextInputModal cardName (js "Error: " ++ m)]
    | Response _ =>
        [Backdrop;
         TextInputModal cardName
           (js "Card not found: " ++ [34%N] ++ cardName ++ [34%N])]
    end.
Proof.
  intros H. pose proof (Orchestrator.dismissOverlay_shown H) as Hd.
  unfold handleCardLookupWithName_settled, showFallbackInput,
    showCardOverlay.
  rewrite Hd. destruct r as [m|[[e| |c d0]|e]]; reflexivity.
Qed.

Lemma run_handler_shown (captured : bool) (s : State) (h : Handler) :
  Spec.shown (page s) -> Spec.shown (page (run_handler captured s h)).
Proof.
  intros H. pose proof (Orchestrator.dismissOverlay_shown H) as Hd.
  destruct h; cbn [run_handler page];
    unfold showLoadingSpinner, showDebugOverlay; rewrite Hd;
    constructor; discriminate.
Qed.

Lemma session_step_shown (s : State) (ev : Event) :
  Spec.shown (page s) -> Spec.shown (page (step s ev)).
Proof.
  intros H. pose proof (Orchestrator.dismissOverlay_shown H) as Hd.
  destruct ev as [e captured| |value|i r]; cbn [step].
  - revert s H Hd. induction (keydown e) as [|h hs IH]; intros s H Hd;
      [exact H|].
    cbn [fold_left]. apply IH.
    + apply run_handler_shown, H.
    + apply Orchestrator.dismissOverlay_shown, run_handler_shown, H.
  - cbn [page]. rewrite Hd. constructor.
  - destruct (has_prompt (page s)); [|exact H].
    destruct (trim value); [exact H|].
    cbn [page]. unfold showLoadingSpinner. rewrite Hd. cbn.
    constructor. discriminate.
  - destruct (nth_error (pending s) i) as [[| |cardName|]|]; cbn [page];
      try exact H.
    + rewrite (settled_on_shown _ H). apply rendered_shown.
    + rewrite (settled_on_shown _ H). apply rendered_shown.
    + rewrite (by_name_settled_on_shown _ _ H).
      destruct r as [m|[[e| |c d0]|e]]; constructor; discriminate.
    + unfold showDebugOverlay. rewrite Hd. constructor. discriminate.
Qed.

Lemma session_run_shown (events : list Event) :
  forall s, Spec.shown (page s) -> Spec.shown (page (run s events)).
Proof.
  induction events as [|ev events IH]; intros s H; [exact H|].
  cbn [run fold_left]. apply IH, session_step_shown, H.
Qed.

Lemma reachable_shown (events : list Event) :
  Spec.shown (page (run initial events)).
Proof. apply session_run_shown. constructor. Qed.

(** X14. Whatever the user does and whenever the requests come back, the
    page holds either nothing of the extension or a backdrop and a single
    overlay; and a dismissal then leaves nothing. *)
Theorem one_overlay_at_a_time (events : list Event) :
  (page (run initial events) = []
   \/ exists overlay,
       overlay <> Backdrop
       /\ page (run initial events) = [Backdrop; overlay])
  /\ page (step (run initial events) Click) = [].
Proof.
  pose proof (reachable_shown events) as H.
  split.
  - destruct H as [|overlay Hne]; [left; reflexivity|].
    right. exists overlay. auto.
  - cbn [step page]. apply Orchestrator.dismissOverlay_shown, H.
Qed.

(** X15. The outcome of a lookup by image replaces whatever the page shows at
    the time it arrives (another card, a prompt the user is typing in,
    nothing after a dismissal) with its own rendering. *)
Theorem late_result_takes_over
        (events : list Event) (i : nat) (r : Reply) :
  nth_error (pending (run initial events)) i = Some ImageLookup ->
  page (step (run initial events) (Settled i r))
  = Spec.rendered (performCardLookup_settled r)
  /\ pending (step (run initial events) (Settled i r))
     = RateLimiter.remove_nth i (pending (run initial events)).
Proof.
  intros H. cbn [step]. rewrite H. cbn [page pending].
  split; [|reflexivity].
  apply settled_on_shown, reachable_shown.
Qed.

(** Two triggers; the first lookup comes back after the second one did and
    its card replaces the prompt. *)
Lemma late_result_takes_over_witness :
  page (step (run initial [Keydown Sample.backtick true;
                           Keydown Sample.backtick true;
                           Settled 1 (LastError (js "port closed"))])
             (Settled 0
                (Response
                   (Background.Success
                      (Backend.FoundBody
                         (Backend.cardRecord Sample.lightning_bolt)
                         (Some (js "Lightning Bolt")))))))
  = Spec.rendered Sample.bolt_found
  /\ pending (step (run initial [Keydown Sample.backtick true;
                                 Keydown Sample.backtick true;
                                 Settled 1 (LastError (js "port closed"))])
                   (Settled 0
                      (Response
                         (Background.Success
                            (Backend.FoundBody
                               (Backend.cardRecord Sample.lightning_bolt)
                               (Some (js "Lightning Bolt")))))))
     = [].
Proof.
  apply (@late_result_takes_over
           [Keydown Sample.backtick true; Keydown Sample.backtick true;
            Settled 1 (LastError (js "port closed"))] 0).
  reflexivity.
Defined.



(** X17. The Search button of the prompt does nothing while the input holds only
    white space; otherwise it starts one lookup for the trimmed text and
    shows the spinner with it. *)
Theorem search_trims_and_skips_blank
        (events : list Event) (value : jsstring) :
  has_prompt (page (run initial events)) = true ->
  match trim value with
  | [] => step (run initial events) (Search value) = run initial events
  | c :: ardName =>
      page (step (run initial events) (Search value))
      = [Backdrop; LoadingSpinner (js "Searching for: " ++ c :: ardName)]
      /\ pending (step (run initial events) (Search value))
         = pending (run initial events) ++ [NameLookup (c :: ardName)]
  end.
Proof.
  intros H. cbn [step]. rewrite H.
  destruct (trim value) as [|c ardName]; [reflexivity|].
  cbn [page pending]. split; [|reflexivity].
  unfold showLoadingSpinner.
  pose proof (reachable_shown events) as Hs.
  rewrite (Orchestrator.dismissOverlay_shown Hs). reflexivity.
Qed.

Lemma search_trims_and_skips_blank_witness :
  step (run initial [Keydown Sample.backtick true;
                     Settled 0 (LastError (js "port closed"))])
       (Search (js "   "))
  = run initial [Keydown Sample.backtick true;
                 Settled 0 (LastError (js "port closed"))].
Proof.
  apply (@search_trims_and_skips_blank
           [Keydown Sample.backtick true;
            Settled 0 (LastError (js "port closed"))] (js "   ")).
  reflexivity.
Defined.

(** X18. A key pressed while the focus is in an input or a textarea never
    starts a lookup or the debug mode: at most, Escape dismisses the
    overlay. *)
Theorem typing_never_triggers
        (s : State) (e : KeyboardEvent) (captured : bool) :
  typing e = true ->
  pending (step s (Keydown e captured)) = pending s
  /\ (page (step s (Keydown e captured)) = page s
      \/ page (step s (Keydown e captured)) = dismissOverlay (page s)).
Proof.
  intros H. cbn [step]. unfold keydown. rewrite H.
  destruct (Backend.jsstring_eqb (key e) (js "Escape"));
    [cbn; auto|].
  destruct (Backend.jsstring_eqb (key e) (js "`")); [cbn; auto|].
  destruct (is_debug_key e); cbn; auto.
Qed.

Lemma typing_never_triggers_witness :
  pending (step initial (Keydown Sample.backtick_in_input true)) = []
  /\ (page (step initial (Keydown Sample.backtick_in_input true)) = []
      \/ page (step initial (Keydown Sample.backtick_in_input true))
         = dismissOverlay []).
Proof.
  apply (@typing_never_triggers initial Sample.backtick_in_input true).
  reflexivity.
Defined.

End SessionFacts.

(** ** More on the Region Capturer *)

Module CaptureFacts.

Import Content.

Local Open Scope Q_scope.









End CaptureFacts.

(** ** More on the pacing *)

Module PacingFacts.

Import RateLimiter.

Local Open Scope Z_scope.

Lemma admissible_app (turns more : list Turn) :
  forall clock p,
    admissible clock p (turns ++ more)
    = admissible clock p turns
      && admissible (final_clock clock p turns) (run p turns) more.
Proof.
  induction turns as [|t turns IH]; intros clock p;
    cbn [app admissible final_clock run fold_left]; [reflexivity|].
  destruct t as [now now'|i now'].
  - rewrite IH. unfold run. rewrite andb_assoc. reflexivity.
  - destruct (nth_error (sleeping p) i); [|reflexivity].
    rewrite IH. unfold run. rewrite andb_assoc. reflexivity.
Qed.

(** The recorded timestamp is never ahead of the clock. *)
Lemma timestamp_behind_clock (turns : list Turn) :
  forall clock p,
    lastScryfallCall p <= clock ->
    admissible clock p turns = true ->
    lastScryfallCall (run p turns) <= final_clock clock p turns.
Proof.
  induction turns as [|t turns IH]; intros clock p Hp Hadm;
    cbn [run fold_left final_clock]; [exact Hp|].
  cbn [admissible] in Hadm. destruct t as [now now'|i now'].
  - repeat (apply andb_true_iff in Hadm; destruct Hadm as [Hadm ?]).
    apply Z.leb_le in Hadm.
    apply IH; [|assumption].
    cbn [step]. destruct (delay now (lastScryfallCall p));
      cbn [lastScryfallCall record_and_fetch]; lia.
  - cbn [step] in *.
    destruct (nth_error (sleeping p) i) as [due|]; [|discriminate].
    repeat (apply andb_true_iff in Hadm; destruct Hadm as [Hadm ?]).
    apply IH; [|assumption].
    cbn [lastScryfallCall record_and_fetch]. lia.
Qed.

(** X22. Whatever the interleaving of the calls, as long as the clock does not
    go back, a call that has to wait waits more than 0 ms and at most
    100 ms. *)
Theorem wait_is_at_most_the_floor
        (clock : Z) (turns : list Turn) (now now' : Z) :
  0 <= clock ->
  admissible clock start (turns ++ [Call now now']) = true ->
  match delay now (lastScryfallCall (run start turns)) with
  | Some d => 0 < d <= SCRYFALL_RATE_LIMIT_MS
  | None => True
  end.
Proof.
  intros Hclock Hadm. rewrite admissible_app in Hadm.
  apply andb_true_iff in Hadm. destruct Hadm as [Hturns Hcall].
  pose proof (@timestamp_behind_clock turns clock start Hclock Hturns)
    as Hlast.
  cbn [admissible] in Hcall.
  repeat (apply andb_true_iff in Hcall; destruct Hcall as [Hcall ?]).
  apply Z.leb_le in Hcall.
  unfold delay, SCRYFALL_RATE_LIMIT_MS. cbv zeta.
  destruct (_ <? _) eqn:E; [|exact I].
  apply Z.ltb_lt in E. lia.
Qed.

(** A call 10 ms after a request waits 90 ms. *)
Lemma wait_is_at_most_the_floor_witness :
  match delay 1010 (lastScryfallCall (run start [Call 1000 1000])) with
  | Some d => 0 < d <= SCRYFALL_RATE_LIMIT_MS
  | None => True
  end.
Proof.
  apply (@wait_is_at_most_the_floor 0 [Call 1000 1000] 1010 1010).
  - lia.
  - reflexivity.
Defined.

End PacingFacts.
